(** * VBDiarization: the diarization pipeline of [vbdiar/scoring/diarization.py]

    A shallow embedding of the class [Diarization] (Python 2, POSIX paths):
    loading pickled i-vector sets from an index file, scoring i-vectors
    against speaker centroids, dumping the RTTM timeline, and the selection
    of the number of speakers.

    Conventions of the embedding.
    - Python [str] is [string]; the functions of [str], [os.path] and [re]
      that the class calls are written out below, for byte strings and
      [posixpath].
    - Floating-point scores and times are idealised as rationals ([Q]);
      window bounds are integers of milliseconds.
    - A Python call either returns or raises: [result].  Logging, printing,
      file output, the values of a generator and the calls to the clustering
      libraries are recorded as a trace of [event]s, in order.  Creating a
      directory and writing a file are taken to succeed.
    - [IvecSet] objects are mutable and may be shared: they live in a
      [heap], and [Diarization.ivecs] is a list of references.  A method
      body is a function from the heap to the heap it leaves, its trace and
      its result: [M].
    - numpy, scikit-learn, pyclustering and the classes [PLDA], [PLDAKMeans]
      and [Normalization] are collaborators: each is a variable of section
      [Pipeline].  Where a theorem is about the matrix that [PLDA.score] or
      [Normalization.s_norm] returns, the two are taken as the
      specification gives them: [spec_scorer].
      [DiarizationException] is an exception of its own, no [IOError]. *)

From Stdlib Require Import Ascii ZArith QArith Lia Bool.
From stdpp Require Import base gmap strings list.

Local Open Scope Z_scope.
Local Open Scope nat_scope.

(* ===================================================================== *)
(** ** Python byte strings                                                 *)
(* ===================================================================== *)

Module PyStr.

(** [c.isspace()] for a byte of a Python 2 [str]: space, \t, \n, \v, \f, \r. *)
Definition isspace (c : ascii) : bool :=
  let n := nat_of_ascii c in
  Nat.eqb n 32 || (Nat.leb 9 n && Nat.leb n 13).

(** [s.rstrip()] *)
Fixpoint rstrip (s : string) : string :=
  match s with
  | EmptyString => EmptyString
  | String c t =>
      match rstrip t with
      | EmptyString => if isspace c then EmptyString else String c EmptyString
      | t' => String c t'
      end
  end.

(** [s.split()]: the maximal runs of non-space bytes. *)
Fixpoint split (s : string) : list string :=
  match s with
  | EmptyString => []
  | String c t =>
      if isspace c then split t
      else match t with
           | EmptyString => [String c EmptyString]
           | String d _ =>
               if isspace d then String c EmptyString :: split t
               else match split t with
                    | w :: ws => String c w :: ws
                    | [] => [String c EmptyString]
                    end
           end
  end.

(** [s.split(sep)] for a one-byte separator. *)
Fixpoint split_on (sep : ascii) (s : string) : list string :=
  match s with
  | EmptyString => [EmptyString]
  | String c t =>
      if Ascii.eqb c sep then EmptyString :: split_on sep t
      else match split_on sep t with
           | w :: ws => String c w :: ws
           | [] => [String c EmptyString]
           end
  end.

(** [sep.join(l)] *)
Fixpoint join (sep : string) (l : list string) : string :=
  match l with
  | [] => EmptyString
  | [x] => x
  | x :: t => x +:+ sep +:+ join sep t
  end.

(** [s.startswith(p)] *)
Fixpoint startswith (p s : string) : bool :=
  match p, s with
  | EmptyString, _ => true
  | String a p', String b s' => Ascii.eqb a b && startswith p' s'
  | String _ _, EmptyString => false
  end.

(** [s.endswith('/')] *)
Fixpoint endswith_char (c : ascii) (s : string) : bool :=
  match s with
  | EmptyString => false
  | String a EmptyString => Ascii.eqb a c
  | String _ t => endswith_char c t
  end.

(** [p in s] *)
Fixpoint contains (p s : string) : bool :=
  startswith p s ||
  match s with
  | EmptyString => false
  | String _ t => contains p t
  end.

(** [s.rstrip('/')] *)
Fixpoint rstrip_char (c : ascii) (s : string) : string :=
  match s with
  | EmptyString => EmptyString
  | String a t =>
      match rstrip_char c t with
      | EmptyString => if Ascii.eqb a c then EmptyString else String a EmptyString
      | t' => String a t'
      end
  end.

(** [s[: s.rfind(c) + 1]]: the prefix up to and including the last [c]. *)
Fixpoint upto_last (c : ascii) (s : string) : string :=
  match s with
  | EmptyString => EmptyString
  | String a t =>
      match upto_last c t with
      | EmptyString => if Ascii.eqb a c then String a EmptyString else EmptyString
      | t' => String a t'
      end
  end.

(** [s == c * len(s)] *)
Fixpoint all_char (c : ascii) (s : string) : bool :=
  match s with
  | EmptyString => true
  | String a t => Ascii.eqb a c && all_char c t
  end.

Definition isdigit (c : ascii) : bool :=
  let n := nat_of_ascii c in Nat.leb 48 n && Nat.leb n 57.

(** The value of a string of decimal digits, read after [acc]. *)
Fixpoint digits (acc : Z) (s : string) : option Z :=
  match s with
  | EmptyString => Some acc
  | String c t =>
      if isdigit c
      then digits (10 * acc + Z.of_nat (nat_of_ascii c - 48))%Z t
      else None
  end.

(** [int(s)] on a whitespace-free token: an optional sign and at least one
    decimal digit; [None] stands for the [ValueError] of [int]. *)
Definition int (s : string) : option Z :=
  match s with
  | EmptyString => None
  | String c t =>
      if Ascii.eqb c "-" then
        match t with EmptyString => None | _ => Z.opp <$> digits 0 t end
      else if Ascii.eqb c "+" then
        match t with EmptyString => None | _ => digits 0 t end
      else digits 0 s
  end.

End PyStr.

(* ===================================================================== *)
(** ** [os.path] on POSIX ([posixpath])                                    *)
(* ===================================================================== *)

Module PosixPath.

(** [os.path.join(a, b)] *)
Definition join (a b : string) : string :=
  if PyStr.startswith "/" b then b
  else if String.eqb a "" || PyStr.endswith_char "/" a then a +:+ b
  else a +:+ "/" +:+ b.

(** [os.path.dirname(p)] *)
Definition dirname (p : string) : string :=
  let head := PyStr.upto_last "/" p in
  if negb (String.eqb head "") && negb (PyStr.all_char "/" head)
  then PyStr.rstrip_char "/" head
  else head.

(** The number of leading slashes that [normpath] keeps: POSIX allows one
    or two initial slashes and treats three or more as one. *)
Definition initial_slashes (path : string) : nat :=
  if PyStr.startswith "/" path then
    if PyStr.startswith "//" path && negb (PyStr.startswith "///" path)
    then 2 else 1
  else 0.

Definition is_nil {A} (l : list A) : bool :=
  match l with [] => true | _ => false end.

Definition last_is (c : string) (l : list string) : bool :=
  match last l with Some x => String.eqb x c | None => false end.

(** One turn of the loop [for comp in comps] of [normpath]. *)
Definition norm_step (initial : nat) (new_comps : list string) (comp : string)
  : list string :=
  if String.eqb comp "" || String.eqb comp "." then new_comps
  else if negb (String.eqb comp "..")
          || (Nat.eqb initial 0 && is_nil new_comps)
          || (negb (is_nil new_comps) && last_is ".." new_comps)
  then new_comps ++ [comp]
  else if negb (is_nil new_comps) then removelast new_comps
  else new_comps.

Fixpoint slashes (n : nat) : string :=
  match n with O => EmptyString | S k => String "/" (slashes k) end.

(** [os.path.normpath(path)] *)
Definition normpath (path : string) : string :=
  if String.eqb path "" then "."
  else
    let initial := initial_slashes path in
    let comps := PyStr.split_on "/" path in
    let new_comps := fold_left (norm_step initial) comps [] in
    let path := PyStr.join "/" new_comps in
    let path := if Nat.ltb 0 initial then slashes initial +:+ path else path in
    if String.eqb path "" then "." else path.

(** What [normpath] leaves behind: components without a slash, none empty or
    ["."], and [".."] only in a leading run of a relative path. *)
Fixpoint no_slash (s : string) : bool :=
  match s with
  | EmptyString => true
  | String c t => negb (Ascii.eqb c "/") && no_slash t
  end.

Definition clean (c : string) : Prop :=
  c <> "" /\ c <> "." /\ c <> ".." /\ no_slash c = true.

Definition shape (k : nat) (l : list string) : Prop :=
  exists m rest, l = replicate m ".." ++ rest /\ Forall clean rest /\ (k <> 0 -> m = 0).

Definition comp_ok (c : string) : Prop := c <> "" /\ no_slash c = true.

End PosixPath.

(* ===================================================================== *)
(** ** The two patterns given to [re.sub]                                  *)
(* ===================================================================== *)

Module Re.

(** [re.sub(p, '', s)] for a literal, non-empty pattern [p]: the
    non-overlapping occurrences of [p] are deleted from left to right.
    [skip] counts the bytes of the current occurrence still to delete. *)
Fixpoint sub_literal_from (p : string) (skip : nat) (s : string) : string :=
  match s with
  | EmptyString => EmptyString
  | String c t =>
      match skip with
      | S k => sub_literal_from p k t
      | O =>
          if PyStr.startswith p s
          then sub_literal_from p (String.length p - 1) t
          else String c (sub_literal_from p 0 t)
      end
  end.

Definition sub_literal (p s : string) : string := sub_literal_from p 0 s.

Definition newline : ascii := ascii_of_nat 10.

(** [re.sub('/.*', '', s)]: from each slash, delete up to the end of the
    line ([.] matches every byte but the newline). *)
Fixpoint sub_slash_rest_from (inside : bool) (s : string) : string :=
  match s with
  | EmptyString => EmptyString
  | String c t =>
      if inside then
        if Ascii.eqb c newline then String c (sub_slash_rest_from false t)
        else sub_slash_rest_from true t
      else if Ascii.eqb c "/" then sub_slash_rest_from true t
      else String c (sub_slash_rest_from false t)
  end.

Definition sub_slash_rest (s : string) : string := sub_slash_rest_from false s.

End Re.

(* ===================================================================== *)
(** ** Python calls: exceptions and results                                *)
(* ===================================================================== *)

(** The exceptions the class can meet.  [AttributeError] carries the name of
    the attribute that the object lacks, [KeyError] the key that the dict
    lacks; [OtherError] is any other class a collaborator may raise. *)
Inductive exn : Type :=
| IOError
| ValueError
| IndexError
| KeyError (key : string)
| AttributeError (attr : string)
| DiarizationException (msg : string)
| OtherError (cls : string).

Inductive result (A : Type) : Type :=
| Ok (a : A)
| Raise (e : exn).

Arguments Ok {A} a.
Arguments Raise {A} e.

Definition is_Ok {A} (r : result A) : Prop :=
  match r with Ok _ => True | Raise _ => False end.

(** [l[i]] for a Python list and a non-negative index. *)
Definition list_getitem {A} (l : list A) (i : nat) : result A :=
  match l !! i with Some x => Ok x | None => Raise IndexError end.

(** [enumerate(l)] *)
Definition enumerate {A} (l : list A) : list (nat * A) := zip (seq 0 (length l)) l.

(** [range(a, b)] *)
Definition range (a b : Z) : list Z :=
  map (fun i => (a + Z.of_nat i)%Z) (seq 0 (Z.to_nat (b - a))).

(* ===================================================================== *)
(** ** numpy arrays                                                        *)
(* ===================================================================== *)

(** A row of features: an i-vector or a centroid. *)
Definition vec : Type := list Q.

Module Numpy.

(** A two-dimensional array: its shape and its items. *)
Record ndarray : Type := mk_ndarray {
  nrows : nat;
  ncols : nat;
  item : nat -> nat -> Q }.

Definition shape (a : ndarray) : nat * nat := (nrows a, ncols a).

(** [a.T] *)
Definition T (a : ndarray) : ndarray :=
  {| nrows := ncols a; ncols := nrows a; item := fun i j => item a j i |}.

Definition row (a : ndarray) (i : nat) : list Q :=
  map (fun j => item a i j) (seq 0 (ncols a)).

Definition column (a : ndarray) (j : nat) : list Q :=
  map (fun i => item a i j) (seq 0 (nrows a)).

(** [a[i]] for a non-negative [i]: row [i], or [IndexError]. *)
Definition getitem (a : ndarray) (i : nat) : result (list Q) :=
  if Nat.ltb i (nrows a) then Ok (row a i) else Raise IndexError.

(** The scan of [np.argmax]: [best_i] is the index of the first maximum
    [best] of the items before index [i]. *)
Fixpoint argmax_from (best_i : nat) (best : Q) (i : nat) (l : list Q) : nat :=
  match l with
  | [] => best_i
  | x :: t =>
      if Qle_bool x best then argmax_from best_i best (S i) t
      else argmax_from i x (S i) t
  end.

(** [np.argmax(l)]: the index of the first maximum; [ValueError] on an empty
    sequence. *)
Definition argmax (l : list Q) : result nat :=
  match l with
  | [] => Raise ValueError
  | x :: t => Ok (argmax_from 0 x 1 t)
  end.

(** [np.sum(a, axis=0)] *)
Definition sum_axis0 (a : ndarray) : list Q :=
  map (fun j => fold_right Qplus 0%Q (column a j)) (seq 0 (ncols a)).

(** [np.tril_indices(n, -1)]: the places strictly below the diagonal, row by
    row. *)
Definition tril_indices (n : nat) : list (nat * nat) :=
  flat_map (fun i => map (fun j => (i, j)) (seq 0 i)) (seq 0 n).

(** [a[idx]] for a pair of index arrays, here a list of places. *)
Definition take (a : ndarray) (idx : list (nat * nat)) : result (list Q) :=
  if forallb (fun p => Nat.ltb (fst p) (nrows a) && Nat.ltb (snd p) (ncols a)) idx
  then Ok (map (fun p => item a (fst p) (snd p)) idx)
  else Raise IndexError.

(** [np.array(l)] for a list of lists of indices: the rows as numbers. *)
Definition array_of_indices (l : list (list nat)) : list vec :=
  map (map (fun i => inject_Z (Z.of_nat i))) l.

End Numpy.

(** The facts that define [np.argmax]: [i] is in range, no item is greater
    than item [i], and every earlier item is smaller. *)
Definition is_argmax (l : list Q) (i : nat) : Prop :=
  i < length l /\
  (forall k, k < length l -> (nth k l 0 <= nth i l 0)%Q) /\
  (forall k, k < i -> (nth k l 0 < nth i l 0)%Q).

(** Modelled from the spec: the classes [PLDA] and [Normalization] are not
    among the sources.  Section 4.4 gives the scorer as "score(embeddings,
    centroids) -> matrix[len(centroids)][len(embeddings)]"; section 3 has
    "column j corresponds exactly to EmbeddingSet's j-th Embedding in
    original order; row i corresponds to centroid i"; the glossary has the
    PLDA "producing pairwise similarity scores"; section 4.3 gives the
    normalizer as "normalize(embeddings, centroids) ->
    ScoreMatrix-compatible array"; by section 7 a shape mismatch is a fatal
    error.  [pair x c] is the score of the embedding [x] against the
    centroid [c]; [refuses X C] is the exception that the collaborator
    raises on an input it does not take, if any. *)
Definition spec_scorer (refuses : list vec -> list vec -> option exn)
    (pair : vec -> vec -> Q) (X C : list vec) : result Numpy.ndarray :=
  match refuses X C with
  | Some e => Raise e
  | None =>
      Ok {| Numpy.nrows := length C; Numpy.ncols := length X;
            Numpy.item := fun i j => pair (nth j X []) (nth i C []) |}
  end.

(* ===================================================================== *)
(** ** The data model: i-vectors and their sets                            *)
(* ===================================================================== *)

(** One i-vector: its data and the window (in milliseconds) of the segment. *)
Record Ivec : Type := mk_Ivec {
  data : vec;
  window_start : Z;
  window_end : Z;
  mfccs : list vec }.

Module IvecSet.

(** Modelled from the spec: the class [IvecSet] is not among the sources; an
    EmbeddingSet has a name, an ordered sequence of embeddings and an
    optional declared speaker count, with [size() -> count of embeddings]
    and [all() -> dense array view, order preserved] (here [get_all]). *)
Record t : Type := mk {
  name : string;
  num_speakers : option Z;
  ivecs : list Ivec }.

Definition size (s : t) : nat := length (ivecs s).

Definition get_all (s : t) : list vec := map data (ivecs s).

Definition set_name (nm : string) (s : t) : t :=
  {| name := nm; num_speakers := num_speakers s; ivecs := ivecs s |}.

Definition set_num_speakers (k : option Z) (s : t) : t :=
  {| name := name s; num_speakers := k; ivecs := ivecs s |}.

Definition blank : t := {| name := ""; num_speakers := None; ivecs := [] |}.

End IvecSet.

(** Objects are shared by reference: [loc] is the address of an [IvecSet]
    in the [heap]. *)
Abbreviation loc := nat.
Abbreviation heap := (list IvecSet.t).

Definition heap_get (h : heap) (l : loc) : IvecSet.t := default IvecSet.blank (h !! l).

(** One line of the timeline, before it is formatted:
    [SPEAKER <file> 1 <start> <duration> <NA> <NA> <file>_spkr_<speaker> <NA>]. *)
Record rttm : Type := mk_rttm {
  rttm_file : string;
  rttm_start : Q;
  rttm_duration : Q;
  rttm_speaker : nat }.

(** What a run does besides returning: log lines, output, the values a
    generator yields, and the calls to the clustering libraries. *)
Inductive event : Type :=
| loginfo (msg : string)
| logwarning (msg : string)
| print_ (msg : string)
| yield_ (l : loc)
| KMeans_fit (n_clusters : Z) (X : list vec)
| PLDAKMeans_fit (centroids : list vec) (n_clusters : Z) (X : list vec)
| xmeans_process (X : list vec) (kmax : Z)
| mkdir_p (path : string)
| open_w (path : string)
| write (path : string) (line : rttm).

(** A method body: from a heap to the heap it leaves, the events in order,
    and the value returned or the exception raised. *)
Definition M (A : Type) : Type := heap -> heap * list event * result A.

#[global] Instance M_ret : MRet M := fun A a h => (h, [], Ok a).

#[global] Instance M_bind : MBind M := fun A B f m h =>
  match m h with
  | (h1, t1, Ok a) => match f a h1 with (h2, t2, r) => (h2, t1 ++ t2, r) end
  | (h1, t1, Raise e) => (h1, t1, Raise e)
  end.

Definition raise {A} (e : exn) : M A := fun h => (h, [], Raise e).

Definition lift {A} (r : result A) : M A := fun h => (h, [], r).

Definition emit (ev : event) : M unit := fun h => (h, [ev], Ok tt).

(** A call to a collaborator: the call is traced, then returns or raises. *)
Definition call {A} (ev : event) (r : result A) : M A := fun h => (h, [ev], r).

(** Reading an attribute that an object may lack. *)
Definition getattr {A} (attr : string) (o : option A) : M A :=
  match o with Some a => mret a | None => raise (AttributeError attr) end.

Definition deref (l : loc) : M IvecSet.t := fun h => (h, [], Ok (heap_get h l)).

(** [ivecset.name = nm] *)
Definition assign_name (l : loc) (nm : string) : M unit :=
  fun h => (alter (IvecSet.set_name nm) l h, [], Ok tt).

(** [ivecset.num_speakers = k] *)
Definition assign_num_speakers (l : loc) (k : Z) : M unit :=
  fun h => (alter (IvecSet.set_num_speakers (Some k)) l h, [], Ok tt).

(** A fresh object. *)
Definition alloc (s : IvecSet.t) : M loc := fun h => (h ++ [s], [], Ok (length h)).

(** [try: body  except IOError: handler] *)
Definition try_except_IOError (body handler : M unit) : M unit := fun h =>
  match body h with
  | (h1, t1, Raise IOError) =>
      match handler h1 with (h2, t2, r) => (h2, t1 ++ t2, r) end
  | other => other
  end.

(** [for x in xs: body(x)] *)
Fixpoint for_each {X} (xs : list X) (body : X -> M unit) : M unit :=
  match xs with
  | [] => mret tt
  | x :: rest => body x;; for_each rest body
  end.

(** A loop that updates a local variable [s]. *)
Fixpoint for_fold {X S} (xs : list X) (body : S -> X -> M S) (s : S) : M S :=
  match xs with
  | [] => mret s
  | x :: rest => s' ← body s x; for_fold rest body s'
  end.

(** The values a generator yielded, in order. *)
Definition yielded (tr : list event) : list loc :=
  omap (fun ev => match ev with yield_ l => Some l | _ => None end) tr.

(** [list(g)] for a generator [g]: the values it yields, unless it raises. *)
Definition list_of (g : M unit) : M (list loc) := fun h =>
  match g h with
  | (h1, t1, Ok _) => (h1, t1, Ok (yielded t1))
  | (h1, t1, Raise e) => (h1, t1, Raise e)
  end.

(** The state of [xmeans] after [process()]: pyclustering's [get_clusters()]
    is the list of clusters, each the list of the indices of its points in
    the data; [get_centers()] is the list of their centres. *)
Record xmeans_state : Type := mk_xmeans {
  get_clusters : list (list nat);
  get_centers : list vec }.

(** The object: the attributes that [__init__] assigns, and [s_norm] and
    [model], which [get_num_speakers] reads and [__init__] never assigns
    ([None]: the object has no such attribute). *)
Record Diarization (normT pldaT modelT : Type) : Type := mk_Diarization {
  input_list : string;
  ivecs_dir : option string;
  ivecs : list loc;
  norm : option normT;
  plda : option pldaT;
  s_norm : option (list vec -> list vec -> result Numpy.ndarray);
  model : option modelT }.

Arguments mk_Diarization {normT pldaT modelT}.
Arguments input_list {normT pldaT modelT} _.
Arguments ivecs_dir {normT pldaT modelT} _.
Arguments ivecs {normT pldaT modelT} _.
Arguments norm {normT pldaT modelT} _.
Arguments plda {normT pldaT modelT} _.
Arguments s_norm {normT pldaT modelT} _.
Arguments model {normT pldaT modelT} _.
(* ===================================================================== *)
(** ** Concrete recordings and collaborators, for the examples             *)
(* ===================================================================== *)

Module Demo.

Definition nl : string := String Re.newline EmptyString.

Definition v1 : Ivec := mk_Ivec [1%Q; 0%Q] 0 1500 [].
Definition v2 : Ivec := mk_Ivec [0%Q; 1%Q] 1500 4000 [].
Definition v3 : Ivec := mk_Ivec [1%Q; 1%Q] 4000 4500 [].

(** A recording with three segments and two declared speakers. *)
Definition meetingA : IvecSet.t := IvecSet.mk "meetingA" (Some 2%Z) [v1; v2; v3].
(** The same segments, without a declared count. *)
Definition meetingB : IvecSet.t := IvecSet.mk "meetingB" None [v1; v2; v3].
(** A recording without segments. *)
Definition silence : IvecSet.t := IvecSet.mk "silence" None [].
(** Recordings under a [beamformed] directory. *)
Definition beamformed_a : IvecSet.t := IvecSet.mk "beamformed/a" (Some 1%Z) [v1].
Definition beamformed_slash_a : IvecSet.t := IvecSet.mk "beamformed//a" (Some 1%Z) [v1].
(** A recording whose name is not a normalized path. *)
Definition dot_slash_b : IvecSet.t := IvecSet.mk "./b" (Some 1%Z) [v1].

(** An index of three lines, and the storage: [missing] has no pickle. *)
Definition index_file (path : string) : option (list string) :=
  if String.eqb path "list.txt"
  then Some ["meetingA 2" +:+ nl; "missing 3" +:+ nl; "meetingB" +:+ nl]
  else None.

Definition pickle_file (path : string) : option IvecSet.t :=
  if String.eqb path "ivecs/meetingA.pkl" then Some meetingA
  else if String.eqb path "ivecs/meetingB.pkl" then Some meetingB
  else None.

(** A stand-in for k-means: the first [k] rows as centres; [ValueError]
    unless [1 <= k <= len(X)], as scikit-learn has it. *)
Definition KMeans (k : Z) (X : list vec) : result (list vec) :=
  if ((0 <? k) && (k <=? Z.of_nat (length X)))%Z
  then Ok (firstn (Z.to_nat k) X)
  else Raise ValueError.

Definition PLDAKMeans (centroids : list vec) (k : Z) (plda : option unit) (X : list vec)
    : result (list vec) :=
  Ok centroids.

(** A stand-in for x-means: the last point alone, the others together. *)
Definition xmeans (X : list vec) (kmax : Z) : result xmeans_state :=
  Ok {| get_clusters := [seq 0 (length X - 1); [length X - 1]];
        get_centers := firstn 2 X |}.

(** A stand-in for the cosine: the dot product. *)
Definition dot (x y : vec) : Q := fold_right Qplus 0%Q (zip_with Qmult x y).

Definition pairwise (f : vec -> vec -> Q) (X C : list vec) : Numpy.ndarray :=
  {| Numpy.nrows := length C; Numpy.ncols := length X;
     Numpy.item := fun i j => f (nth j X []) (nth i C []) |}.

(** The normalizer's stand-in for the score of a pair: half the dot
    product. *)
Definition half_dot (x c : vec) : Q := (dot x c / 2)%Q.

Definition plda_score (p : unit) (X C : list vec) : result Numpy.ndarray :=
  Ok (pairwise dot X C).
Definition s_norm (nm : unit) (X C : list vec) : result Numpy.ndarray :=
  Ok (pairwise (fun x c => (dot x c / 2)%Q) X C).

Definition get_features (scores : list Q) : result (list Q) := Ok scores.
Definition model_test (m : unit) (features : list (list Q)) : result Numpy.ndarray :=
  Ok {| Numpy.nrows := 1; Numpy.ncols := length features; Numpy.item := fun _ _ => 1%Q |}.

(** A score matrix for [meetingA]: two centroids, three segments. *)
Definition table : list (list Q) := [[9%Q; 1%Q; 5%Q]; [2%Q; 8%Q; 5%Q]].
Definition matrix : Numpy.ndarray :=
  {| Numpy.nrows := 2; Numpy.ncols := 3;
     Numpy.item := fun i j => nth j (nth i table []) 0%Q |}.

(** Pipelines: over a directory, over given sets, with and without PLDA. *)
Definition loader : Diarization unit unit unit :=
  mk_Diarization "list.txt" (Some "ivecs") [] None None None None.
Definition cosine_pipeline (sets : list loc) : Diarization unit unit unit :=
  mk_Diarization "list.txt" None sets None None None None.
Definition plda_pipeline (sets : list loc) : Diarization unit unit unit :=
  mk_Diarization "list.txt" None sets None (Some tt) None None.
Definition norm_pipeline (sets : list loc) : Diarization unit unit unit :=
  mk_Diarization "list.txt" None sets (Some tt) (Some tt) None None.

(** More recordings: a second set that normalizes to ["b"], a set with more
    declared speakers than i-vectors, a set under two directories, and a
    set with an absolute name. *)
Definition plain_b : IvecSet.t := IvecSet.mk "b" (Some 1%Z) [v2].
Definition crowded : IvecSet.t := IvecSet.mk "crowded" (Some 2%Z) [v1].
Definition nested : IvecSet.t := IvecSet.mk "room/mic/rec" (Some 1%Z) [v1].
Definition absolute : IvecSet.t := IvecSet.mk "/tmp/rec" (Some 1%Z) [v1].

(** An index with an empty line in the middle. *)
Definition gap_index_file (path : string) : option (list string) :=
  if String.eqb path "gap.txt"
  then Some ["meetingA 2" +:+ nl; nl; "meetingB" +:+ nl]
  else None.

(** A pipeline with [s_norm] and [model] assigned from outside. *)
Definition count_pipeline : Diarization unit unit unit :=
  mk_Diarization "list.txt" None [0] None (Some tt)
    (Some (fun X C => Ok (pairwise dot X C))) (Some tt).

(** The cosine scores of [meetingA] against its first two i-vectors. *)
Definition meetingA_scores : Numpy.ndarray :=
  pairwise dot (IvecSet.get_all meetingA) [data v1; data v2].

End Demo.

(* ===================================================================== *)
(** ** The class [Diarization]                                             *)
(* ===================================================================== *)

Section Pipeline.

(** The collaborators' objects: a [Normalization], a [PLDA] and the count
    model behind [self.model]. *)
Variables normT pldaT modelT : Type.

(** Storage: the lines of a text file (each with its line end) and the
    [IvecSet] pickled in a file, by path; [None]: no such file. *)
Variable index_file : string -> option (list string).
Variable pickle_file : string -> option IvecSet.t.

(** [sklearnKMeans(n_clusters=k).fit(X).cluster_centers_] *)
Variable sklearnKMeans : Z -> list vec -> result (list vec).
(** [PLDAKMeans(centroids, k, plda).fit(X)] *)
Variable PLDAKMeans : list vec -> Z -> option pldaT -> list vec -> result (list vec).
(** [xm = xmeans(X, kmax=kmax); xm.process()] *)
Variable xmeans : list vec -> Z -> result xmeans_state.
(** The cosine of the angle between two rows. *)
Variable cosine : vec -> vec -> Q.
(** [plda.score(X, centroids)] *)
Variable plda_score : pldaT -> list vec -> list vec -> result Numpy.ndarray.
(** [norm.s_norm(X, centroids)] *)
Variable norm_s_norm : normT -> list vec -> list vec -> result Numpy.ndarray.
(** [Normalization.get_features(scores)] *)
Variable get_features : list Q -> result (list Q).
(** [model.test(features, prob=True)] *)
Variable model_test : modelT -> list (list Q) -> result Numpy.ndarray.
(** The score of one embedding against one centroid, under a PLDA and under
    a normalizer. *)
Variable plda_pair : pldaT -> vec -> vec -> Q.
Variable norm_pair : normT -> vec -> vec -> Q.

Local Abbreviation Self := (Diarization normT pldaT modelT).
Local Abbreviation scores_t := (gmap string Numpy.ndarray).

(** The number of features of the rows of a two-dimensional array-like, as
    scikit-learn checks it: at least one row, at least one feature, and as
    many in every row. *)
Definition n_features (X : list vec) : option nat :=
  match X with
  | [] => None
  | x :: rest =>
      if Nat.ltb 0 (length x) && forallb (fun y => Nat.eqb (length y) (length x)) rest
      then Some (length x)
      else None
  end.

(** [sklearn.metrics.pairwise.cosine_similarity(X, Y)]: item [(i, j)] is the
    cosine of row [i] of [X] and row [j] of [Y]; [ValueError] unless both
    are two-dimensional with the same number of features. *)
Definition cosine_similarity (X Y : list vec) : result Numpy.ndarray :=
  match n_features X, n_features Y with
  | Some d, Some d' =>
      if Nat.eqb d d'
      then Ok {| Numpy.nrows := length X; Numpy.ncols := length Y;
                 Numpy.item := fun i j => cosine (nth i X []) (nth j Y []) |}
      else Raise ValueError
  | _, _ => Raise ValueError
  end.

(** [open(path)] and [pickle.load]: a fresh object, or [IOError]. *)
Definition pickle_load (path : string) : M loc :=
  match pickle_file path with
  | Some s => alloc s
  | None => raise IOError
  end.

(** The body of the loop of [load_ivecs], for one [line] of the index. *)
Definition load_line (self : Self) (line : string) : M unit :=
  first ← lift (list_getitem (PyStr.split (PyStr.rstrip line)) 0);
  emit (loginfo ("[Diarization.load_ivecs] Loading pickle file " +:+ first +:+ " ..."));;
  let line := PyStr.rstrip line in
  try_except_IOError
    (if Nat.eqb (length (PyStr.split line)) 1 then
       dir ← getattr "ivecs_dir" (ivecs_dir self);
       i ← pickle_load (PosixPath.join dir (line +:+ ".pkl"));
       emit (yield_ i)
     else if Nat.eqb (length (PyStr.split line)) 2 then
       file_name ← lift (list_getitem (PyStr.split line) 0);
       token ← lift (list_getitem (PyStr.split line) 1);
       num_spks ← lift (match PyStr.int token with
                        | Some k => Ok k
                        | None => Raise ValueError
                        end);
       dir ← getattr "ivecs_dir" (ivecs_dir self);
       ivec_set ← pickle_load (PosixPath.join dir (file_name +:+ ".pkl"));
       assign_num_speakers ivec_set num_spks;;
       emit (yield_ ivec_set)
     else
       raise (DiarizationException
                ("[Diarization.load_ivecs] Unexpected number of columns in input list "
                   +:+ input_list self +:+ ".")))
    (first ← lift (list_getitem (PyStr.split (PyStr.rstrip line)) 0);
     emit (logwarning ("[Diarization.load_ivecs] No pickle file found for " +:+ first +:+ "."))).

(** The lines of the index, from the first on. *)
Definition load_lines (self : Self) (lines : list string) : M unit :=
  for_each lines (load_line self).

(** [load_ivecs]: a generator; its values are the [yield_] events. *)
Definition load_ivecs (self : Self) : M unit :=
  match index_file (input_list self) with
  | Some lines => load_lines self lines
  | None => raise IOError
  end.

(** [Diarization(input_list, ivecs, norm, plda)]: [ivecs] is a directory or
    a list of sets. *)
Definition init (input_list : string) (ivecs : string + list loc)
    (norm : option normT) (plda : option pldaT) : M Self :=
  match ivecs with
  | inl dir =>
      let self := mk_Diarization input_list (Some dir) [] norm plda None None in
      sets ← list_of (load_ivecs self);
      mret (mk_Diarization input_list (Some dir) sets norm plda None None)
  | inr sets =>
      mret (mk_Diarization input_list None sets norm plda None None)
  end.

(** [get_ivec] *)
Fixpoint get_ivec_from (name : string) (sets : list loc) : M loc :=
  match sets with
  | [] => raise (DiarizationException
                   ("[Diarization.get_ivec] Name of the set not found - " +:+ name +:+ "."))
  | l :: rest =>
      ii ← deref l;
      emit (print_ (IvecSet.name ii));;
      if String.eqb name (IvecSet.name ii) then mret l else get_ivec_from name rest
  end.

Definition get_ivec (self : Self) (name : string) : M loc :=
  get_ivec_from name (ivecs self).

(** The centroids of one set, in [score_ivec]: k-means with the declared
    number of speakers (re-estimated with the PLDA when there is one), else
    x-means up to [max_num_speakers]. *)
Definition estimate_centroids (self : Self) (ivecset : IvecSet.t) (ivecs : list vec)
    (max_num_speakers : Z) : M (list vec) :=
  match IvecSet.num_speakers ivecset with
  | Some num_speakers =>
      cluster_centers ← call (KMeans_fit num_speakers ivecs) (sklearnKMeans num_speakers ivecs);
      match plda self with
      | None => mret cluster_centers
      | Some _ =>
          call (PLDAKMeans_fit cluster_centers num_speakers ivecs)
               (PLDAKMeans cluster_centers num_speakers (plda self) ivecs)
      end
  | None =>
      xm ← call (xmeans_process ivecs max_num_speakers) (xmeans ivecs max_num_speakers);
      mret (Numpy.array_of_indices (get_clusters xm))
  end.

(** The scores of the i-vectors against the centroids, in [score_ivec]. *)
Definition score_matrix (self : Self) (ivecs centroids : list vec) : result Numpy.ndarray :=
  match norm self with
  | None =>
      match plda self with
      | None =>
          match cosine_similarity ivecs centroids with
          | Ok a => Ok (Numpy.T a)
          | Raise e => Raise e
          end
      | Some p => plda_score p ivecs centroids
      end
  | Some nm => norm_s_norm nm ivecs centroids
  end.

(** The body of the loop of [score_ivec], for the set at [l]. *)
Definition score_ivecset (self : Self) (max_num_speakers : Z) (scores_dict : scores_t)
    (l : loc) : M scores_t :=
  ivecset ← deref l;
  let name := PosixPath.normpath (IvecSet.name ivecset) in
  let ivecs := IvecSet.get_all ivecset in
  emit (loginfo ("Scoring " +:+ name +:+ " ..."));;
  let size := IvecSet.size ivecset in
  if Nat.ltb 0 size then
    centroids ← estimate_centroids self ivecset ivecs max_num_speakers;
    scores ← lift (score_matrix self ivecs centroids);
    mret (<[name := scores]> scores_dict)
  else
    emit (logwarning ("[Diarization.score] No i-vectors to score in "
                        +:+ IvecSet.name ivecset +:+ "."));;
    mret scores_dict.

(** [score_ivec] *)
Definition score_ivec (self : Self) (max_num_speakers : Z) : M scores_t :=
  for_fold (ivecs self) (score_ivecset self max_num_speakers) ∅.

(** [variational_bayes] *)
Definition variational_bayes (self : Self) (scores : scores_t) : M unit :=
  for_each (ivecs self) (fun l =>
    ivecset ← deref l;
    if Nat.ltb 0 (IvecSet.size ivecset) then
      _ ← lift (list_getitem (IvecSet.ivecs ivecset) 0);
      mret tt
    else
      emit (logwarning ("[Diarization.variational_bayes] No i-vectors in "
                          +:+ IvecSet.name ivecset +:+ "."))).

(** [scores[name]] *)
Definition dict_getitem (scores : scores_t) (name : string) : result Numpy.ndarray :=
  match scores !! name with
  | Some a => Ok a
  | None => Raise (KeyError name)
  end.

(** The line of segment [i] of the timeline: the body of the inner loop of
    [dump_rttm]. *)
Definition dump_segment (scores : scores_t) (name reg_name path : string)
    (entry : nat * Ivec) : M unit :=
  let i := fst entry in
  let ivec := snd entry in
  let start := window_start ivec in
  let end_ := window_end ivec in
  a ← lift (dict_getitem scores name);
  col ← lift (Numpy.getitem (Numpy.T a) i);
  idx ← lift (Numpy.argmax col);
  emit (write path
          {| rttm_file := reg_name;
             rttm_start := (inject_Z start / 1000)%Q;
             rttm_duration := (inject_Z (end_ - start) / 1000)%Q;
             rttm_speaker := idx |}).

(** The body of the outer loop of [dump_rttm], for the set at [l]. *)
Definition dump_ivecset (scores : scores_t) (out_dir : string) (l : loc) : M unit :=
  ivecset ← deref l;
  if Nat.ltb 0 (IvecSet.size ivecset) then
    let name := IvecSet.name ivecset in
    (if PyStr.contains "beamformed" (IvecSet.name ivecset)
     then assign_name l (Re.sub_literal "beamformed/" (IvecSet.name ivecset))
     else mret tt);;
    ivecset ← deref l;
    let reg_name := Re.sub_slash_rest (IvecSet.name ivecset) in
    emit (mkdir_p (PosixPath.join out_dir (PosixPath.dirname name)));;
    let path := PosixPath.join out_dir (name +:+ ".rttm") in
    emit (open_w path);;
    for_each (enumerate (IvecSet.ivecs ivecset)) (dump_segment scores name reg_name path)
  else
    emit (logwarning ("[Diarization.dump_rttm] No i-vectors to dump in "
                        +:+ IvecSet.name ivecset +:+ ".")).

(** [dump_rttm] *)
Definition dump_rttm (self : Self) (scores : scores_t) (out_dir : string) : M unit :=
  for_each (ivecs self) (dump_ivecset scores out_dir).

(** The body of the loop of [get_num_speakers], for one candidate count. *)
Definition try_num_speakers (self : Self) (ivecs : list vec)
    (acc : list (list vec) * list (list Q)) (num_speakers : Z)
    : M (list (list vec) * list (list Q)) :=
  let centroids_list := fst acc in
  let features := snd acc in
  cluster_centers ← call (KMeans_fit num_speakers ivecs) (sklearnKMeans num_speakers ivecs);
  centroids ← call (PLDAKMeans_fit cluster_centers num_speakers ivecs)
                   (PLDAKMeans cluster_centers num_speakers (plda self) ivecs);
  let centroids_list := centroids_list ++ [centroids] in
  f ← getattr "s_norm" (s_norm self);
  a ← lift (f centroids centroids);
  scores ← lift (Numpy.take a (Numpy.tril_indices (Z.to_nat num_speakers)));
  fea ← lift (get_features scores);
  mret (centroids_list, features ++ [fea]).

(** [get_num_speakers] *)
Definition get_num_speakers (self : Self) (ivecs : list vec) (min_speakers max_speakers : Z)
    : M (Z * list vec) :=
  acc ← for_fold (range min_speakers (max_speakers + 1)) (try_num_speakers self ivecs) ([], []);
  let centroids_list := fst acc in
  let features := snd acc in
  mdl ← getattr "model" (model self);
  probs ← lift (model_test mdl features);
  num_speakers ← lift (Numpy.argmax (Numpy.sum_axis0 probs));
  centroids ← lift (list_getitem centroids_list num_speakers);
  mret ((Z.of_nat num_speakers + min_speakers)%Z, centroids).




(* ===================================================================== *)
(** ** The vocabulary of the statements                                    *)
(* ===================================================================== *)

(** A body that only reads the heap. *)
Definition pure_heap {A} (m : M A) : Prop :=
  forall h, fst (fst (m h)) = h.

(** The line that [dump_rttm] writes for segment [i] of a recording with
    score matrix [a]. *)
Definition is_segment_line (a : Numpy.ndarray) (reg_name : string) (i : nat) (v : Ivec)
    (t : rttm) : Prop :=
  rttm_file t = reg_name /\
  rttm_start t = (inject_Z (window_start v) / 1000)%Q /\
  rttm_duration t = (inject_Z (window_end v - window_start v) / 1000)%Q /\
  is_argmax (Numpy.column a i) (rttm_speaker t).

(** The name of a set once [dump_rttm] has visited it. *)
Definition dumped_name (nm : string) : string :=
  if PyStr.contains "beamformed" nm then Re.sub_literal "beamformed/" nm else nm.

(** The heap once [dump_rttm] has visited the set at [l]. *)
Definition dumped_heap (l : loc) (h : heap) : heap :=
  let s := heap_get h l in
  if Nat.ltb 0 (IvecSet.size s) && PyStr.contains "beamformed" (IvecSet.name s)
  then alter (IvecSet.set_name (Re.sub_literal "beamformed/" (IvecSet.name s))) l h
  else h.


(** The timeline lines written, in order. *)
Definition written (tr : list event) : list rttm :=
  omap (fun ev => match ev with write _ t => Some t | _ => None end) tr.



(** The recording that an index line names: its first column. *)
Definition recording_of (line : string) : string :=
  hd "" (PyStr.split (PyStr.rstrip line)).

(** The number of columns of an index line. *)
Definition columns (line : string) : nat :=
  length (PyStr.split (PyStr.rstrip line)).

(** The persisted record that a well-formed index line names, [<name>] or
    [<name> <count>] with an integer count, under the directory [dir]. *)
Definition record_path (dir line : string) : option string :=
  match PyStr.split (PyStr.rstrip line) with
  | [_] => Some (PosixPath.join dir (PyStr.rstrip line +:+ ".pkl"))
  | [file_name; token] =>
      match PyStr.int token with
      | Some _ => Some (PosixPath.join dir (file_name +:+ ".pkl"))
      | None => None
      end
  | _ => None
  end.

(** The speaker count that an index line declares. *)
Definition declared_count (line : string) : option Z :=
  match PyStr.split (PyStr.rstrip line) with
  | [_; token] => PyStr.int token
  | _ => None
  end.

(** The set that a well-formed index line loads, if its record is there. *)
Definition loaded_of (dir line : string) : list IvecSet.t :=
  match record_path dir line with
  | Some path =>
      match pickle_file path with
      | Some s =>
          match declared_count line with
          | Some k => [IvecSet.set_num_speakers (Some k) s]
          | None => [s]
          end
      | None => []
      end
  | None => []
  end.

Definition loading_msg (nm : string) : string :=
  "[Diarization.load_ivecs] Loading pickle file " +:+ nm +:+ " ...".

Definition missing_msg (nm : string) : string :=
  "[Diarization.load_ivecs] No pickle file found for " +:+ nm +:+ ".".

Definition columns_msg (self : Self) : string :=
  "[Diarization.load_ivecs] Unexpected number of columns in input list "
    +:+ input_list self +:+ ".".

(** What [load_ivecs] does for one line of the index, case by case. *)
Definition load_line_cases (self : Self) (dir line : string) (h : heap)
    : heap * list event * result unit :=
  match PyStr.split (PyStr.rstrip line) with
  | [] => (h, [], Raise IndexError)
  | [nm] =>
      match pickle_file (PosixPath.join dir (PyStr.rstrip line +:+ ".pkl")) with
      | Some s => (h ++ [s], [loginfo (loading_msg nm); yield_ (length h)], Ok tt)
      | None => (h, [loginfo (loading_msg nm); logwarning (missing_msg nm)], Ok tt)
      end
  | [nm; token] =>
      match PyStr.int token with
      | None => (h, [loginfo (loading_msg nm)], Raise ValueError)
      | Some k =>
          match pickle_file (PosixPath.join dir (nm +:+ ".pkl")) with
          | Some s =>
              (h ++ [IvecSet.set_num_speakers (Some k) s],
               [loginfo (loading_msg nm); yield_ (length h)], Ok tt)
          | None => (h, [loginfo (loading_msg nm); logwarning (missing_msg nm)], Ok tt)
          end
      end
  | nm :: _ :: _ :: _ =>
      (h, [loginfo (loading_msg nm)], Raise (DiarizationException (columns_msg self)))
  end.

(** Modelled from the spec: "ModelUnavailableError (count-selection
    requested without a pretrained model ...)".  The sources define no such
    class; an exception counts as that signal when it has that name, or
    when it is the [AttributeError] for the attribute [model] that
    [get_num_speakers] reads. *)
Definition is_ModelUnavailableError (e : exn) : bool :=
  match e with
  | OtherError cls => String.eqb cls "ModelUnavailableError"
  | AttributeError attr => String.eqb attr "model"
  | _ => false
  end.

(** *** More vocabulary: the collection as the heap shows it *)

(** The name of the set at [l], and the key of its scores in [score_ivec]. *)
Definition name_at (h : heap) (l : loc) : string := IvecSet.name (heap_get h l).

Definition key_at (h : heap) (l : loc) : string := PosixPath.normpath (name_at h l).

Definition size_at (h : heap) (l : loc) : nat := IvecSet.size (heap_get h l).

(** The heap once [dump_rttm] has visited the sets [sets], in order. *)
Definition visited (h : heap) (sets : list loc) : heap :=
  fold_left (fun h' l => dumped_heap l h') sets h.

Definition not_found_msg (name : string) : string :=
  "[Diarization.get_ivec] Name of the set not found - " +:+ name +:+ ".".

Definition no_ivecs_msg (nm : string) : string :=
  "[Diarization.variational_bayes] No i-vectors in " +:+ nm +:+ ".".

(** *** Facts about [normpath] *)

Lemma split_on_cons_inv sep s : exists w ws, PyStr.split_on sep s = w :: ws.
Proof.
  induction s as [|c t [w [ws IH]]]; simpl; eauto.
  destruct (Ascii.eqb c sep); eauto. rewrite IH. eauto.
Qed.

Lemma split_on_no_slash s : Forall (fun c => PosixPath.no_slash c = true) (PyStr.split_on "/" s).
Proof.
  induction s as [|c t IH]; simpl.
  - repeat constructor.
  - destruct (Ascii.eqb c "/") eqn:E.
    + constructor; auto.
    + destruct (PyStr.split_on "/" t) as [|w ws]; inversion IH; subst;
        constructor; simpl; try rewrite E; auto.
Qed.

Lemma replicate_snoc {A} (x : A) m : replicate m x ++ [x] = replicate (S m) x.
Proof. induction m as [|m IH]; simpl; [reflexivity|]. f_equal. exact IH. Qed.

Lemma last_replicate {A} (x : A) m : m <> 0 -> last (replicate m x) = Some x.
Proof.
  intros Hm. destruct m; [congruence|]. rewrite <- replicate_snoc.
  apply last_snoc.
Qed.

Lemma clean_dotdot : ~ PosixPath.clean "..".
Proof. intros (_ & _ & H & _). congruence. Qed.

Lemma shape_nil k : PosixPath.shape k [].
Proof. exists 0, []. simpl. auto. Qed.

Lemma norm_step_skip k acc c : c = "" \/ c = "." -> PosixPath.norm_step k acc c = acc.
Proof. intros [-> | ->]; reflexivity. Qed.

Lemma norm_step_plain k acc c :
  c <> "" -> c <> "." -> c <> ".." -> PosixPath.norm_step k acc c = acc ++ [c].
Proof.
  intros H1 H2 H3. unfold PosixPath.norm_step.
  destruct (String.eqb_spec c ""); [congruence|].
  destruct (String.eqb_spec c "."); [congruence|].
  destruct (String.eqb_spec c ".."); [congruence|]. reflexivity.
Qed.

Lemma norm_step_dotdot_first acc : acc = [] -> PosixPath.norm_step 0 acc ".." = acc ++ [".."].
Proof. intros ->. reflexivity. Qed.

Lemma norm_step_dotdot_root k : k <> 0 -> PosixPath.norm_step k [] ".." = [].
Proof. intros Hk. unfold PosixPath.norm_step. destruct k; [congruence|]. reflexivity. Qed.

Lemma norm_step_dotdot_more k acc :
  PosixPath.norm_step k (acc ++ [".."]) ".." = (acc ++ [".."]) ++ [".."].
Proof.
  unfold PosixPath.norm_step, PosixPath.last_is. rewrite last_snoc.
  replace (PosixPath.is_nil (acc ++ [".."])) with false by (destruct acc; reflexivity).
  cbn. rewrite orb_true_r. reflexivity.
Qed.

Lemma norm_step_dotdot_pop k acc r :
  r <> ".." -> PosixPath.norm_step k (acc ++ [r]) ".." = acc.
Proof.
  intros Hr. unfold PosixPath.norm_step, PosixPath.last_is. rewrite last_snoc.
  replace (PosixPath.is_nil (acc ++ [r])) with false by (destruct acc; reflexivity).
  destruct (String.eqb_spec r ".."); [congruence|].
  cbn. rewrite andb_false_r. cbn. apply removelast_last.
Qed.

Lemma norm_step_shape k acc c :
  PosixPath.no_slash c = true -> PosixPath.shape k acc -> PosixPath.shape k (PosixPath.norm_step k acc c).
Proof.
  intros Hc (m & rest & -> & Hrest & Hk).
  destruct (String.eqb_spec c "") as [->|H1];
    [rewrite norm_step_skip by auto; exists m, rest; auto|].
  destruct (String.eqb_spec c ".") as [->|H2];
    [rewrite norm_step_skip by auto; exists m, rest; auto|].
  destruct (String.eqb_spec c "..") as [->|H3].
  - destruct rest as [|r rest' _] using rev_ind.
    + rewrite app_nil_r. destruct m as [|m'].
      * destruct (Nat.eq_dec k 0) as [->|Hk0].
        -- rewrite norm_step_dotdot_first by reflexivity.
           exists 1, []. split; [reflexivity|]. split; [constructor|congruence].
        -- rewrite norm_step_dotdot_root by assumption. apply shape_nil.
      * rewrite <- replicate_snoc, norm_step_dotdot_more.
        exists (S (S m')), []. rewrite app_nil_r, !replicate_snoc.
        repeat split; auto. intros Hk0. specialize (Hk Hk0). discriminate.
    + apply Forall_app in Hrest as [Hr1 Hr2]. inversion Hr2; subst.
      rewrite app_assoc, norm_step_dotdot_pop.
      * exists m, rest'. auto.
      * intros ->. apply clean_dotdot; auto.
  - rewrite norm_step_plain by assumption.
    exists m, (rest ++ [c]). rewrite app_assoc. repeat split; auto.
    apply Forall_app. split; auto. repeat constructor; auto.
Qed.

Lemma fold_shape k comps : forall acc,
  Forall (fun c => PosixPath.no_slash c = true) comps -> PosixPath.shape k acc ->
  PosixPath.shape k (fold_left (PosixPath.norm_step k) comps acc).
Proof.
  induction comps as [|c cs IH]; simpl; intros acc Hc Hs; auto.
  inversion Hc; subst. apply IH; auto. apply norm_step_shape; auto.
Qed.

Lemma shape_split_at acc x xs : forall m rest,
  acc ++ x :: xs = replicate m ".." ++ rest -> Forall PosixPath.clean rest ->
  PosixPath.clean x \/ (x = ".." /\ m <> 0 /\ acc = replicate (length acc) "..").
Proof.
  induction acc as [|a acc IH]; intros m rest Heq Hrest.
  - destruct m as [|m]; simpl in Heq.
    + subst rest. inversion Hrest; auto.
    + inversion Heq; subst. right. auto.
  - destruct m as [|m]; simpl in Heq.
    + subst rest. inversion Hrest as [|? ? _ Hr]; subst.
      apply Forall_app in Hr as [_ Hr]. inversion Hr; auto.
    + inversion Heq as [[Ha Heq']]. subst a.
      destruct (IH _ _ Heq' Hrest) as [Hc | (Hx & _ & Hacc)]; auto.
      right. repeat split; auto. simpl. f_equal. exact Hacc.
Qed.

Lemma fold_fixed k xs : forall acc,
  PosixPath.shape k (acc ++ xs) -> fold_left (PosixPath.norm_step k) xs acc = acc ++ xs.
Proof.
  induction xs as [|x xs IH]; intros acc Hs; simpl.
  - symmetry. apply app_nil_r.
  - assert (Hstep : PosixPath.norm_step k acc x = acc ++ [x]).
    { destruct Hs as (m & rest & Heq & Hrest & Hk).
      destruct (shape_split_at _ _ _ _ _ Heq Hrest)
        as [(H1 & H2 & H3 & _) | (-> & Hm & Hacc)].
      - apply norm_step_plain; assumption.
      - assert (k = 0) as -> by (destruct k; [reflexivity | exfalso; apply Hm, Hk; discriminate]).
        destruct (length acc) as [|n] eqn:Hlen.
        + apply norm_step_dotdot_first. rewrite Hacc. reflexivity.
        + rewrite Hacc, <- replicate_snoc. apply norm_step_dotdot_more. }
    rewrite Hstep. rewrite IH; rewrite <- app_assoc; simpl; auto.
Qed.

Lemma split_on_app x s :
  PosixPath.no_slash x = true -> PyStr.split_on "/" (x +:+ String "/" s) = x :: PyStr.split_on "/" s.
Proof.
  induction x as [|c x IH]; simpl; intros Hx; [reflexivity|].
  apply andb_prop in Hx as [Hc Hx]. apply negb_true_iff in Hc.
  rewrite Hc, IH by assumption. reflexivity.
Qed.

Lemma split_on_id x : PosixPath.no_slash x = true -> PyStr.split_on "/" x = [x].
Proof.
  induction x as [|c x IH]; simpl; intros Hx; [reflexivity|].
  apply andb_prop in Hx as [Hc Hx]. apply negb_true_iff in Hc.
  rewrite Hc, IH by assumption. reflexivity.
Qed.

Lemma split_join xs :
  xs <> [] -> Forall (fun c => PosixPath.no_slash c = true) xs ->
  PyStr.split_on "/" (PyStr.join "/" xs) = xs.
Proof.
  induction xs as [|x xs IH]; intros Hne Hxs; [congruence|].
  inversion Hxs; subst. destruct xs as [|y ys].
  - simpl. apply split_on_id; assumption.
  - change (PyStr.join "/" (x :: y :: ys)) with (x +:+ String "/" (PyStr.join "/" (y :: ys))).
    rewrite split_on_app by assumption. f_equal. apply IH; [discriminate | assumption].
Qed.

Lemma shape_comp_ok k cs : PosixPath.shape k cs -> Forall PosixPath.comp_ok cs.
Proof.
  intros (m & rest & -> & Hrest & _). apply Forall_app. split.
  - clear. induction m; simpl; constructor; auto. split; [discriminate | reflexivity].
  - eapply Forall_impl; [exact Hrest|]. intros c (H1 & _ & _ & H4). split; auto.
Qed.

Lemma join_head_no_slash cs :
  Forall PosixPath.comp_ok cs -> PyStr.startswith "/" (PyStr.join "/" cs) = false.
Proof.
  intros H. destruct H as [|c cs [Hne Hns] _]; [reflexivity|].
  destruct c as [|a c]; [congruence|].
  simpl in Hns. apply andb_prop in Hns as [Ha _]. apply negb_true_iff in Ha.
  assert (Ha' : Ascii.eqb "/" a = false) by (rewrite Ascii.eqb_sym; exact Ha).
  assert (Hcons : forall s, PyStr.startswith "/" (String a s) = false).
  { intros s. cbn [PyStr.startswith]. rewrite Ha'. reflexivity. }
  destruct cs as [|d ds]; [apply Hcons|].
  change (PyStr.join "/" (String a c :: d :: ds))
    with (String a (c +:+ "/" +:+ PyStr.join "/" (d :: ds))).
  apply Hcons.
Qed.

Lemma join_nonempty cs : Forall PosixPath.comp_ok cs -> cs <> [] -> PyStr.join "/" cs <> "".
Proof.
  intros H Hne. destruct H as [|c cs [Hc _] _]; [congruence|].
  destruct c; [congruence|]. destruct cs; simpl; discriminate.
Qed.

Lemma fold_clean_comps k cs :
  PosixPath.shape k cs ->
  fold_left (PosixPath.norm_step k) (PyStr.split_on "/" (PyStr.join "/" cs)) [] = cs.
Proof.
  intros Hs. destruct cs as [|c cs].
  - reflexivity.
  - rewrite split_join.
    + apply (fold_fixed k (c :: cs) []). exact Hs.
    + discriminate.
    + eapply Forall_impl; [apply (shape_comp_ok _ _ Hs)|]. intros ? [_ ?]; auto.
Qed.

Lemma normpath_form p :
  PosixPath.normpath p = "." \/
  exists k cs, k <= 2 /\ PosixPath.shape k cs /\ (k = 0 -> cs <> []) /\
               PosixPath.normpath p = PosixPath.slashes k +:+ PyStr.join "/" cs.
Proof.
  unfold PosixPath.normpath. destruct (String.eqb_spec p ""); [left; reflexivity|].
  remember (PosixPath.initial_slashes p) as k eqn:Ek.
  remember (fold_left (PosixPath.norm_step k) (PyStr.split_on "/" p) []) as cs eqn:Ecs.
  assert (Hk : k <= 2).
  { subst k. unfold PosixPath.initial_slashes. destruct (PyStr.startswith "/" p); [|lia].
    destruct (PyStr.startswith "//" p && negb (PyStr.startswith "///" p)); lia. }
  assert (Hs : PosixPath.shape k cs).
  { subst cs. apply fold_shape; [apply split_on_no_slash | apply shape_nil]. }
  clear Ek Ecs. destruct k as [|k'].
  - change (0 <? 0) with false. cbv iota.
    destruct (String.eqb_spec (PyStr.join "/" cs) "") as [E|E]; [left; reflexivity|].
    right. exists 0, cs. repeat split; auto.
    intros _ ->. apply E. reflexivity.
  - change (0 <? S k') with true. cbv iota.
    right. exists (S k'), cs. repeat split; auto; discriminate.
Qed.

Lemma normpath_eq s k cs :
  s <> "" -> PosixPath.initial_slashes s = k ->
  fold_left (PosixPath.norm_step k) (PyStr.split_on "/" s) [] = cs ->
  PosixPath.normpath s =
    let path := if 0 <? k then PosixPath.slashes k +:+ PyStr.join "/" cs else PyStr.join "/" cs in
    if String.eqb path "" then "." else path.
Proof.
  intros Hs <- <-. unfold PosixPath.normpath.
  destruct (String.eqb_spec s ""); [congruence | reflexivity].
Qed.

Lemma normpath_fixed k cs :
  k <= 2 -> PosixPath.shape k cs -> (k = 0 -> cs <> []) ->
  PosixPath.normpath (PosixPath.slashes k +:+ PyStr.join "/" cs) = PosixPath.slashes k +:+ PyStr.join "/" cs.
Proof.
  intros Hk Hs Hne.
  pose proof (shape_comp_ok _ _ Hs) as Hok.
  pose proof (join_head_no_slash _ Hok) as Hhead.
  pose proof (fold_clean_comps _ _ Hs) as Hfold.
  destruct k as [|[|[|k]]]; [| | |lia].
  - pose proof (join_nonempty _ Hok (Hne eq_refl)) as Hj.
    change (PosixPath.slashes 0 +:+ PyStr.join "/" cs) with (PyStr.join "/" cs).
    rewrite (normpath_eq _ 0 cs); auto.
    + change (0 <? 0) with false. cbv zeta iota.
      destruct (String.eqb_spec (PyStr.join "/" cs) ""); [congruence | reflexivity].
    + unfold PosixPath.initial_slashes. rewrite Hhead. reflexivity.
  - change (PosixPath.slashes 1 +:+ PyStr.join "/" cs) with (String "/" (PyStr.join "/" cs)).
    rewrite (normpath_eq _ 1 cs); [reflexivity | discriminate | |].
    + unfold PosixPath.initial_slashes.
      change (PyStr.startswith "//" (String "/" (PyStr.join "/" cs)))
        with (PyStr.startswith "/" (PyStr.join "/" cs)).
      rewrite Hhead. reflexivity.
    + exact Hfold.
  - change (PosixPath.slashes 2 +:+ PyStr.join "/" cs)
      with (String "/" (String "/" (PyStr.join "/" cs))).
    rewrite (normpath_eq _ 2 cs); [reflexivity | discriminate | |].
    + unfold PosixPath.initial_slashes.
      change (PyStr.startswith "///" (String "/" (String "/" (PyStr.join "/" cs))))
        with (PyStr.startswith "/" (PyStr.join "/" cs)).
      rewrite Hhead. reflexivity.
    + exact Hfold.
Qed.

(** [PosixPath.normpath] is idempotent: a normalized path is its own normal form. *)
Lemma normpath_idempotent p : PosixPath.normpath (PosixPath.normpath p) = PosixPath.normpath p.
Proof.
  destruct (normpath_form p) as [-> | (k & cs & Hk & Hs & Hne & ->)].
  - reflexivity.
  - apply normpath_fixed; assumption.
Qed.

(* ===================================================================== *)
(** ** Running method bodies                                               *)
(* ===================================================================== *)

Lemma bind_Ok {A B} (m : M A) (f : A -> M B) h h1 t1 a :
  m h = (h1, t1, Ok a) ->
  (m ≫= f) h = match f a h1 with (h2, t2, r) => (h2, t1 ++ t2, r) end.
Proof. intros H. unfold mbind, M_bind. rewrite H. reflexivity. Qed.

Lemma bind_Raise {A B} (m : M A) (f : A -> M B) h h1 t1 e :
  m h = (h1, t1, Raise e) -> (m ≫= f) h = (h1, t1, Raise e).
Proof. intros H. unfold mbind, M_bind. rewrite H. reflexivity. Qed.

Lemma bind_lift_Ok {A B} (r : result A) (f : A -> M B) h a :
  r = Ok a -> (lift r ≫= f) h = f a h.
Proof.
  intros ->. unfold mbind, M_bind, lift. destruct (f a h) as [[h2 t2] r]. reflexivity.
Qed.

Lemma bind_lift_Raise {A B} (r : result A) (f : A -> M B) h e :
  r = Raise e -> (lift r ≫= f) h = (h, [], Raise e).
Proof. intros ->. reflexivity. Qed.

Lemma bind_deref {B} (l : loc) (f : IvecSet.t -> M B) h :
  (deref l ≫= f) h = f (heap_get h l) h.
Proof.
  unfold mbind, M_bind, deref. destruct (f (heap_get h l) h) as [[h2 t2] r]. reflexivity.
Qed.

Lemma bind_emit {B} (ev : event) (f : unit -> M B) h :
  (emit ev ≫= f) h = match f tt h with (h2, t2, r) => (h2, ev :: t2, r) end.
Proof. reflexivity. Qed.

Lemma pure_bind {A B} (m : M A) (f : A -> M B) :
  pure_heap m -> (forall a, pure_heap (f a)) -> pure_heap (m ≫= f).
Proof.
  intros Hm Hf h. unfold mbind, M_bind. specialize (Hm h).
  destruct (m h) as [[h1 t1] [a|e]]; simpl in *; subst; [|reflexivity].
  specialize (Hf a h). destruct (f a h) as [[h2 t2] r]. exact Hf.
Qed.

Lemma pure_ret {A} (a : A) : pure_heap (mret a).
Proof. intros h. reflexivity. Qed.

Lemma pure_raise {A} e : pure_heap (@raise A e).
Proof. intros h. reflexivity. Qed.

Lemma pure_lift {A} (r : result A) : pure_heap (lift r).
Proof. intros h. reflexivity. Qed.

Lemma pure_emit ev : pure_heap (emit ev).
Proof. intros h. reflexivity. Qed.

Lemma pure_call {A} ev (r : result A) : pure_heap (call ev r).
Proof. intros h. reflexivity. Qed.

Lemma pure_deref l : pure_heap (deref l).
Proof. intros h. reflexivity. Qed.

Lemma pure_getattr {A} attr (o : option A) : pure_heap (getattr attr o).
Proof. destruct o; [apply pure_ret | apply pure_raise]. Qed.

Lemma pure_for_each {X} (xs : list X) (body : X -> M unit) :
  (forall x, pure_heap (body x)) -> pure_heap (for_each xs body).
Proof.
  intros Hb. induction xs as [|x xs IH]; simpl; [apply pure_ret|].
  apply pure_bind; auto.
Qed.

Lemma pure_for_fold {X S} (xs : list X) (body : S -> X -> M S) :
  (forall s x, pure_heap (body s x)) -> forall s, pure_heap (for_fold xs body s).
Proof.
  intros Hb. induction xs as [|x xs IH]; simpl; intros s; [apply pure_ret|].
  apply pure_bind; auto.
Qed.

Create HintDb pure.

#[local] Hint Resolve pure_ret pure_raise pure_lift pure_emit pure_call pure_deref
  pure_getattr : pure.

Ltac pure_heap_tac :=
  repeat first
    [ apply pure_bind; [|intros ?]
    | apply pure_for_each; intros ?
    | apply pure_for_fold; intros ? ?
    | progress auto with pure
    | match goal with
      | |- pure_heap (match ?x with _ => _ end) => destruct x
      | |- pure_heap (if ?b then _ else _) => destruct b
      end ].

Lemma pure_estimate_centroids self s X k : pure_heap (estimate_centroids self s X k).
Proof. unfold estimate_centroids. pure_heap_tac. Qed.

Lemma pure_score_ivecset self k d l : pure_heap (score_ivecset self k d l).
Proof.
  unfold score_ivecset. pure_heap_tac. apply pure_estimate_centroids.
Qed.



Lemma pure_try_num_speakers self X acc k : pure_heap (try_num_speakers self X acc k).
Proof. unfold try_num_speakers. pure_heap_tac. Qed.


Lemma pure_get_ivec self name : pure_heap (get_ivec self name).
Proof.
  unfold get_ivec. induction (ivecs self) as [|l ls IH]; simpl; pure_heap_tac.
Qed.

(* ===================================================================== *)
(** ** [np.argmax]                                                         *)
(* ===================================================================== *)

Lemma argmax_from_spec t : forall pre best_i best,
  best_i < length pre ->
  nth best_i pre 0%Q = best ->
  (forall k, k < length pre -> (nth k pre 0 <= best)%Q) ->
  (forall k, k < best_i -> (nth k pre 0 < best)%Q) ->
  is_argmax (pre ++ t) (Numpy.argmax_from best_i best (length pre) t).
Proof.
  induction t as [|x t IH]; intros pre best_i best Hi Hb Hle Hlt; simpl.
  - rewrite app_nil_r. subst best. repeat split; auto.
  - replace (pre ++ x :: t) with ((pre ++ [x]) ++ t) by (rewrite <- app_assoc; reflexivity).
    replace (S (length pre)) with (length (pre ++ [x])) by (rewrite length_app; simpl; lia).
    destruct (Qle_bool x best) eqn:E.
    + apply Qle_bool_iff in E. apply IH.
      * rewrite length_app. simpl. lia.
      * rewrite app_nth1 by lia. exact Hb.
      * intros k Hk. rewrite length_app in Hk. simpl in Hk.
        destruct (Nat.eq_dec k (length pre)) as [->|Hne].
        -- rewrite nth_middle. exact E.
        -- rewrite app_nth1 by lia. apply Hle. lia.
      * intros k Hk. rewrite app_nth1 by lia. apply Hlt. exact Hk.
    + assert (Hx : (best < x)%Q).
      { apply Qnot_le_lt. intros H. apply Qle_bool_iff in H. congruence. }
      apply IH.
      * rewrite length_app. simpl. lia.
      * apply nth_middle.
      * intros k Hk. rewrite length_app in Hk. simpl in Hk.
        destruct (Nat.eq_dec k (length pre)) as [->|Hne].
        -- rewrite nth_middle. apply Qle_refl.
        -- rewrite app_nth1 by lia. apply Qlt_le_weak.
           eapply Qle_lt_trans; [apply Hle; lia | exact Hx].
      * intros k Hk. rewrite app_nth1 by lia.
        eapply Qle_lt_trans; [apply Hle; lia | exact Hx].
Qed.

Lemma argmax_spec l i : Numpy.argmax l = Ok i -> is_argmax l i.
Proof.
  destruct l as [|x t]; simpl; intros H; [discriminate|].
  inversion H; subst. apply (argmax_from_spec t [x] 0 x); simpl; auto.
  - intros k Hk. assert (k = 0) as -> by lia. apply Qle_refl.
  - intros k Hk. lia.
Qed.

Lemma argmax_total l : l <> [] -> exists i, Numpy.argmax l = Ok i.
Proof. destruct l; [congruence|]. intros _. eexists. reflexivity. Qed.

Lemma length_column a j : length (Numpy.column a j) = Numpy.nrows a.
Proof. unfold Numpy.column. rewrite length_map, length_seq. reflexivity. Qed.

Lemma getitem_T a j :
  j < Numpy.ncols a -> Numpy.getitem (Numpy.T a) j = Ok (Numpy.column a j).
Proof.
  intros Hj. unfold Numpy.getitem. simpl.
  destruct (Nat.ltb_spec j (Numpy.ncols a)); [reflexivity | lia].
Qed.

(* ===================================================================== *)
(** ** [dump_rttm]: the lines of one set                                   *)
(* ===================================================================== *)

Lemma dump_segment_ok scores name reg_name path a i v h :
  scores !! name = Some a -> i < Numpy.ncols a -> 0 < Numpy.nrows a ->
  exists t, dump_segment scores name reg_name path (i, v) h = (h, [write path t], Ok tt)
            /\ is_segment_line a reg_name i v t.
Proof.
  intros Ha Hi Hr. unfold dump_segment, dict_getitem. rewrite Ha. simpl fst. simpl snd.
  rewrite (bind_lift_Ok _ _ _ a) by reflexivity.
  rewrite (bind_lift_Ok _ _ _ (Numpy.column a i)) by (apply getitem_T; exact Hi).
  destruct (argmax_total (Numpy.column a i)) as [idx Hidx].
  { intros E. pose proof (length_column a i) as Hl. rewrite E in Hl. simpl in Hl. lia. }
  rewrite (bind_lift_Ok _ _ _ idx) by exact Hidx.
  eexists. split; [reflexivity|].
  repeat split; simpl; try reflexivity; apply (argmax_spec _ _ Hidx).
Qed.

Lemma dump_segments_ok scores name reg_name path a vs : forall k h,
  scores !! name = Some a -> k + length vs <= Numpy.ncols a -> 0 < Numpy.nrows a ->
  exists lines,
    for_each (zip (seq k (length vs)) vs) (dump_segment scores name reg_name path) h
      = (h, map (write path) lines, Ok tt)
    /\ length lines = length vs
    /\ forall i v, vs !! i = Some v ->
         exists t, lines !! i = Some t /\ is_segment_line a reg_name (k + i) v t.
Proof.
  induction vs as [|v vs IH]; intros k h Ha Hk Hr.
  - exists []. repeat split; auto. intros i v Hv. discriminate.
  - simpl in Hk.
    destruct (dump_segment_ok scores name reg_name path a k v h Ha) as (t & Ht & Hline);
      [lia | exact Hr |].
    destruct (IH (S k) h Ha) as (lines & Hrun & Hlen & Hall); [lia | exact Hr |].
    exists (t :: lines). split; [|split].
    + simpl. rewrite (bind_Ok _ _ _ _ _ _ Ht). rewrite Hrun. reflexivity.
    + simpl. congruence.
    + intros [|i] v' Hv'; simpl in Hv'.
      * inversion Hv'; subst. exists t. rewrite Nat.add_0_r. auto.
      * destruct (Hall i v' Hv') as (t' & Ht' & Hl').
        exists t'. replace (k + S i) with (S k + i) by lia. auto.
Qed.

Lemma heap_get_in_range h l : 0 < IvecSet.size (heap_get h l) -> l < length h.
Proof.
  unfold heap_get. intros H. destruct (h !! l) eqn:E.
  - eapply lookup_lt_Some; eauto.
  - simpl in H. unfold IvecSet.size in H. simpl in H. lia.
Qed.

Lemma heap_get_alter f h l :
  l < length h -> heap_get (alter f l h) l = f (heap_get h l).
Proof.
  intros Hl. unfold heap_get. rewrite list_lookup_alter_eq.
  destruct (lookup_lt_is_Some_2 h l Hl) as [s ->]. reflexivity.
Qed.

Lemma heap_get_alter_ne f h l l' :
  l <> l' -> heap_get (alter f l h) l' = heap_get h l'.
Proof. intros Hl. unfold heap_get. rewrite list_lookup_alter_ne by exact Hl. reflexivity. Qed.

Lemma for_each_dump_segment_heap scores name reg_name path es : forall h,
  fst (fst (for_each es (dump_segment scores name reg_name path) h)) = h.
Proof.
  intros h. apply (pure_for_each es). intros [i v]. unfold dump_segment. pure_heap_tac.
Qed.

(** [dump_ivecset] on a set with i-vectors: the name is rewritten, the
    directory made, the file opened, and the segments written. *)
Lemma dump_ivecset_run scores out_dir l h :
  let s := heap_get h l in
  0 < IvecSet.size s ->
  dump_ivecset scores out_dir l h =
    match for_each (enumerate (IvecSet.ivecs s))
            (dump_segment scores (IvecSet.name s)
               (Re.sub_slash_rest (dumped_name (IvecSet.name s)))
               (PosixPath.join out_dir (IvecSet.name s +:+ ".rttm")))
            (dumped_heap l h)
    with
    | (h2, tr, r) =>
        (h2,
         mkdir_p (PosixPath.join out_dir (PosixPath.dirname (IvecSet.name s)))
           :: open_w (PosixPath.join out_dir (IvecSet.name s +:+ ".rttm")) :: tr,
         r)
    end.
Proof.
  intros s Hs. pose proof (heap_get_in_range h l Hs) as Hl.
  unfold dump_ivecset, dumped_heap, dumped_name. rewrite bind_deref. fold s.
  destruct (Nat.ltb_spec 0 (IvecSet.size s)) as [_|]; [|lia]. simpl andb.
  destruct (PyStr.contains "beamformed" (IvecSet.name s)) eqn:Eb.
  - unfold mbind at 1, M_bind at 1, assign_name at 1.
    rewrite bind_deref. rewrite heap_get_alter by exact Hl. fold s. simpl IvecSet.name.
    simpl IvecSet.ivecs. rewrite !bind_emit.
    destruct (for_each _ _ _) as [[h2 tr] r]. reflexivity.
  - unfold mbind at 1, M_bind at 1, mret at 1, M_ret at 1.
    rewrite bind_deref. fold s. rewrite !bind_emit.
    destruct (for_each _ _ _) as [[h2 tr] r]. reflexivity.
Qed.

(** The heap that [dump_ivecset] leaves, whatever its outcome. *)
Lemma dump_ivecset_heap scores out_dir l h :
  fst (fst (dump_ivecset scores out_dir l h)) = dumped_heap l h.
Proof.
  destruct (Nat.ltb_spec 0 (IvecSet.size (heap_get h l))) as [Hs|Hs].
  - rewrite dump_ivecset_run by exact Hs.
    pose proof (for_each_dump_segment_heap scores (IvecSet.name (heap_get h l))
      (Re.sub_slash_rest (dumped_name (IvecSet.name (heap_get h l))))
      (PosixPath.join out_dir (IvecSet.name (heap_get h l) +:+ ".rttm"))
      (enumerate (IvecSet.ivecs (heap_get h l))) (dumped_heap l h)) as Hp.
    destruct (for_each _ _ _) as [[h2 tr] r]. exact Hp.
  - unfold dump_ivecset, dumped_heap. rewrite bind_deref.
    destruct (Nat.ltb_spec 0 (IvecSet.size (heap_get h l))); [lia|]. reflexivity.
Qed.

Lemma written_app t1 t2 : written (t1 ++ t2) = written t1 ++ written t2.
Proof. unfold written. apply omap_app. Qed.

Lemma dump_segment_any scores name reg_name path i v h h1 tr r :
  dump_segment scores name reg_name path (i, v) h = (h1, tr, r) ->
  (exists e, r = Raise e /\ tr = []) \/
  (exists a t, r = Ok tt /\ tr = [write path t] /\ scores !! name = Some a
               /\ is_segment_line a reg_name i v t).
Proof.
  unfold dump_segment, dict_getitem. simpl fst. simpl snd.
  destruct (scores !! name) as [a|] eqn:Ea.
  2:{ intros H. inversion H. left. eauto. }
  rewrite (bind_lift_Ok _ _ _ a) by reflexivity.
  destruct (Numpy.getitem (Numpy.T a) i) as [col|e] eqn:Ec.
  2:{ intros H. inversion H. left. eauto. }
  rewrite (bind_lift_Ok _ _ _ col) by reflexivity.
  destruct (Numpy.argmax col) as [idx|e] eqn:Ei.
  2:{ intros H. inversion H. left. eauto. }
  rewrite (bind_lift_Ok _ _ _ idx) by reflexivity.
  intros H. inversion H; subst. right. exists a. eexists.
  do 3 (split; [reflexivity|]). do 3 (split; [reflexivity|]).
  simpl. unfold Numpy.getitem in Ec. simpl in Ec.
  destruct (Nat.ltb i (Numpy.ncols a)); [|discriminate].
  inversion Ec; subst col. apply argmax_spec. exact Ei.
Qed.

(** Whatever the outcome of the inner loop of [dump_rttm], every line it
    has written is the line of its segment. *)
Lemma dump_segments_any scores name reg_name path vs : forall k h h1 tr r,
  for_each (zip (seq k (length vs)) vs) (dump_segment scores name reg_name path) h
    = (h1, tr, r) ->
  forall i t, written tr !! i = Some t ->
    exists v a, vs !! i = Some v /\ scores !! name = Some a
                /\ is_segment_line a reg_name (k + i) v t.
Proof.
  induction vs as [|v vs IH]; intros k h h1 tr r H i t Ht.
  - simpl in H. inversion H; subst. discriminate.
  - simpl in H. unfold mbind, M_bind in H.
    destruct (dump_segment scores name reg_name path (k, v) h) as [[h2 t2] r2] eqn:E.
    destruct (dump_segment_any _ _ _ _ _ _ _ _ _ _ E)
      as [(e & -> & ->) | (a & t0 & -> & -> & Ha & Hline)].
    + inversion H; subst. discriminate.
    + destruct (for_each _ _ h2) as [[h3 t3] r3] eqn:E3.
      inversion H; subst; clear H.
      change (written ([write path t0] ++ t3)) with (t0 :: written t3) in Ht.
      destruct i as [|i]; simpl in Ht.
      * inversion Ht; subst. exists v, a. rewrite Nat.add_0_r. auto.
      * destruct (IH _ _ _ _ _ E3 i t Ht) as (v' & a' & Hv' & Ha' & Hl').
        exists v', a'. replace (k + S i) with (S k + i) by lia. auto.
Qed.

(** The same for [dump_rttm] on one set: a written line is the line of its
    segment, whether or not the loop reaches the end. *)
Lemma dump_rttm_lines_sound scores out_dir l h i t :
  let s := heap_get h l in
  written (snd (fst (dump_ivecset scores out_dir l h))) !! i = Some t ->
  exists v a, IvecSet.ivecs s !! i = Some v /\ scores !! IvecSet.name s = Some a
              /\ is_segment_line a (Re.sub_slash_rest (dumped_name (IvecSet.name s))) i v t.
Proof.
  intros s. destruct (Nat.ltb_spec 0 (IvecSet.size s)) as [Hs|Hs].
  - rewrite dump_ivecset_run by exact Hs. fold s.
    destruct (for_each _ _ _) as [[h2 tr] r] eqn:E. simpl. intros Ht.
    unfold enumerate in E.
    apply (dump_segments_any _ _ _ _ _ _ _ _ _ _ E i t Ht).
  - unfold dump_ivecset. rewrite bind_deref. fold s.
    destruct (Nat.ltb_spec 0 (IvecSet.size s)); [lia|]. simpl. discriminate.
Qed.

(** One visit of [dump_rttm], for a set with at least one embedding whose
    score matrix is in [scores] under the set's name, with a column per
    embedding and at least one centroid row: the directory, the file, and
    one line per segment, in order. *)
Lemma dump_ivecset_segment_lines scores out_dir l h a :
  let s := heap_get h l in
  0 < IvecSet.size s ->
  scores !! IvecSet.name s = Some a ->
  IvecSet.size s <= Numpy.ncols a ->
  0 < Numpy.nrows a ->
  exists lines,
    dump_ivecset scores out_dir l h =
      (dumped_heap l h,
       mkdir_p (PosixPath.join out_dir (PosixPath.dirname (IvecSet.name s)))
         :: open_w (PosixPath.join out_dir (IvecSet.name s +:+ ".rttm"))
         :: map (write (PosixPath.join out_dir (IvecSet.name s +:+ ".rttm"))) lines,
       Ok tt)
    /\ length lines = IvecSet.size s
    /\ forall i v, IvecSet.ivecs s !! i = Some v ->
         exists t, lines !! i = Some t /\
           rttm_start t = (inject_Z (window_start v) / 1000)%Q /\
           rttm_duration t = (inject_Z (window_end v - window_start v) / 1000)%Q /\
           is_argmax (Numpy.column a i) (rttm_speaker t).
Proof.
  intros s Hs Ha Hcols Hrows.
  rewrite dump_ivecset_run by exact Hs. fold s.
  destruct (dump_segments_ok scores (IvecSet.name s)
              (Re.sub_slash_rest (dumped_name (IvecSet.name s)))
              (PosixPath.join out_dir (IvecSet.name s +:+ ".rttm"))
              a (IvecSet.ivecs s) 0 (dumped_heap l h) Ha)
    as (lines & Hrun & Hlen & Hall); [exact Hcols | exact Hrows |].
  unfold enumerate. rewrite Hrun.
  exists lines. split; [reflexivity|]. split; [exact Hlen|].
  intros i v Hv. destruct (Hall i v Hv) as (t & Ht & _ & H1 & H2 & H3).
  exists t. auto.
Qed.

(* ===================================================================== *)
(** ** [score_ivec]                                                        *)
(* ===================================================================== *)





(** [score_ivecset] on a set with i-vectors: estimate, score, store. *)
Lemma score_ivecset_run self max_num_speakers d l h :
  let s := heap_get h l in
  0 < IvecSet.size s ->
  score_ivecset self max_num_speakers d l h =
    match estimate_centroids self s (IvecSet.get_all s) max_num_speakers h with
    | (h1, tr, Ok cs) =>
        let ev := loginfo ("Scoring " +:+ PosixPath.normpath (IvecSet.name s) +:+ " ...") in
        match score_matrix self (IvecSet.get_all s) cs with
        | Ok a => (h1, ev :: tr, Ok (<[PosixPath.normpath (IvecSet.name s) := a]> d))
        | Raise e => (h1, ev :: tr, Raise e)
        end
    | (h1, tr, Raise e) =>
        (h1, loginfo ("Scoring " +:+ PosixPath.normpath (IvecSet.name s) +:+ " ...") :: tr,
         Raise e)
    end.
Proof.
  intros s Hs. unfold score_ivecset. rewrite bind_deref. fold s.
  rewrite bind_emit.
  destruct (Nat.ltb_spec 0 (IvecSet.size s)) as [_|]; [|lia].
  unfold mbind, M_bind.
  destruct (estimate_centroids self s (IvecSet.get_all s) max_num_speakers h)
    as [[h1 tr] [cs|e]]; [|reflexivity].
  unfold lift. destruct (score_matrix self (IvecSet.get_all s) cs) as [a|e]; simpl.
  - rewrite app_nil_r. reflexivity.
  - rewrite app_nil_r. reflexivity.
Qed.

(** [score_ivecset] on a set without i-vectors: two log lines. *)
Lemma score_ivecset_skip self max_num_speakers d l h :
  let s := heap_get h l in
  IvecSet.size s = 0 ->
  score_ivecset self max_num_speakers d l h =
    (h,
     [ loginfo ("Scoring " +:+ PosixPath.normpath (IvecSet.name s) +:+ " ...");
       logwarning ("[Diarization.score] No i-vectors to score in " +:+ IvecSet.name s +:+ ".") ],
     Ok d).
Proof.
  intros s Hs. unfold score_ivecset. rewrite bind_deref. fold s. rewrite bind_emit.
  rewrite Hs. reflexivity.
Qed.


(** *** The unknown-K branch *)

Lemma length_concat_uniform {A} (D : nat) (cl : list (list A)) :
  Forall (fun c => length c = D) cl -> length (concat cl) = length cl * D.
Proof.
  induction 1 as [|c cl Hc _ IH]; [reflexivity|].
  simpl. rewrite length_app, IH, Hc. reflexivity.
Qed.

Lemma Forall_length_array_of_indices (D : nat) (cl : list (list nat)) :
  Forall (fun c => length c = D) (Numpy.array_of_indices cl) ->
  Forall (fun c => length c = D) cl.
Proof.
  unfold Numpy.array_of_indices. rewrite Forall_fmap. intros H.
  eapply Forall_impl; [exact H|]. intros c. simpl. rewrite length_map. auto.
Qed.

(** C3 (the code departs from it). Without a declared count, what
    [score_ivec] takes for centroids is [np.array(xm.get_clusters())]: one
    row per cluster, holding the indices of the cluster's points, not a
    centre.  Since every point is in one cluster, the rows cannot be two or
    more vectors of the embedding dimension [D] when the set has fewer than
    [2 * D] embeddings. *)
Theorem xmeans_centroids_are_index_lists self s max_num_speakers h h1 tr cs D :
  IvecSet.num_speakers s = None ->
  Forall (fun v => length (data v) = D) (IvecSet.ivecs s) ->
  0 < IvecSet.size s < 2 * D ->
  (forall st, xmeans (IvecSet.get_all s) max_num_speakers = Ok st ->
              length (concat (get_clusters st)) = IvecSet.size s) ->
  estimate_centroids self s (IvecSet.get_all s) max_num_speakers h = (h1, tr, Ok cs) ->
  (exists st, xmeans (IvecSet.get_all s) max_num_speakers = Ok st /\
              cs = Numpy.array_of_indices (get_clusters st))
  /\ ~ (2 <= length cs /\ Forall (fun c => length c = D) cs).
Proof.
  intros Hnone _ Hsize Hpart Hest.
  unfold estimate_centroids in Hest. rewrite Hnone in Hest.
  unfold mbind, M_bind, call in Hest.
  destruct (xmeans (IvecSet.get_all s) max_num_speakers) as [st|e] eqn:Ex; [|discriminate].
  simpl in Hest. inversion Hest; subst; clear Hest.
  split; [exists st; auto|].
  intros [Hk Hall].
  apply Forall_length_array_of_indices in Hall.
  pose proof (length_concat_uniform D _ Hall) as Hlen.
  rewrite (Hpart st eq_refl) in Hlen.
  unfold Numpy.array_of_indices in Hk. rewrite length_map in Hk. nia.
Qed.

(** *** The keys of the score mapping *)

Lemma score_ivecset_result self max_num_speakers d l h h1 tr d1 :
  score_ivecset self max_num_speakers d l h = (h1, tr, Ok d1) ->
  let s := heap_get h l in
  (IvecSet.size s = 0 /\ d1 = d) \/
  (0 < IvecSet.size s /\ exists a, d1 = <[PosixPath.normpath (IvecSet.name s) := a]> d).
Proof.
  intros H s. destruct (Nat.eq_dec (IvecSet.size s) 0) as [Hz|Hnz].
  - left. split; [exact Hz|].
    pose proof (score_ivecset_skip self max_num_speakers d l h Hz) as Hb.
    fold s in Hb. rewrite Hb in H. inversion H. reflexivity.
  - right. assert (Hs : 0 < IvecSet.size s) by lia. split; [exact Hs|].
    rewrite score_ivecset_run in H by exact Hs. fold s in H.
    destruct (estimate_centroids self s (IvecSet.get_all s) max_num_speakers h)
      as [[h2 tr2] [cs|e]]; [|discriminate].
    simpl in H. destruct (score_matrix self (IvecSet.get_all s) cs) as [a|e]; [|discriminate].
    inversion H. exists a. reflexivity.
Qed.

Lemma for_fold_score_heap self max_num_speakers ls d h :
  fst (fst (for_fold ls (score_ivecset self max_num_speakers) d h)) = h.
Proof. apply pure_for_fold. intros. apply pure_score_ivecset. Qed.

(** What the loop of [score_ivec] does to the keys: it keeps those it had,
    adds the normalized name of every set with i-vectors, and adds nothing
    else. *)
Lemma score_loop_keys self max_num_speakers ls : forall d h h1 tr d1,
  for_fold ls (score_ivecset self max_num_speakers) d h = (h1, tr, Ok d1) ->
  (forall k, is_Some (d !! k) -> is_Some (d1 !! k)) /\
  (forall l, l ∈ ls -> 0 < IvecSet.size (heap_get h l) ->
     is_Some (d1 !! PosixPath.normpath (IvecSet.name (heap_get h l)))) /\
  (forall k, is_Some (d1 !! k) ->
     is_Some (d !! k) \/ exists nm, k = PosixPath.normpath nm).
Proof.
  induction ls as [|l ls IH]; intros d h h1 tr d1 H.
  - simpl in H. inversion H; subst. repeat split; auto.
    intros l Hl. inversion Hl.
  - simpl in H. unfold mbind, M_bind in H.
    pose proof (pure_score_ivecset self max_num_speakers d l h) as Hpure.
    destruct (score_ivecset self max_num_speakers d l h) as [[h2 tr2] [d2|e]] eqn:Eb;
      [|discriminate].
    simpl in Hpure. subst h2.
    destruct (for_fold ls (score_ivecset self max_num_speakers) d2 h)
      as [[h3 tr3] r3] eqn:El.
    inversion H; subst; clear H.
    destruct (IH _ _ _ _ _ El) as (Hkeep & Hadd & Honly).
    pose proof (score_ivecset_result _ _ _ _ _ _ _ _ Eb) as Hres. simpl in Hres.
    assert (Hd2 : forall k, is_Some (d !! k) -> is_Some (d2 !! k)).
    { intros k Hk. destruct Hres as [[_ ->] | [_ [a ->]]]; [exact Hk|].
      rewrite lookup_insert. case_decide; [eauto | exact Hk]. }
    split; [|split].
    + intros k Hk. apply Hkeep, Hd2, Hk.
    + intros l' Hl' Hs'. apply elem_of_cons in Hl' as [->|Hl'].
      * apply Hkeep. destruct Hres as [[Hz _] | [_ [a ->]]]; [lia|].
        rewrite lookup_insert_eq. eauto.
      * apply Hadd; assumption.
    + intros k Hk. destruct (Honly k Hk) as [Hk2 | Hnm]; [|right; exact Hnm].
      destruct Hres as [[_ ->] | [_ [a ->]]]; [left; exact Hk2|].
      rewrite lookup_insert in Hk2. case_decide; [right; eauto | left; exact Hk2].
Qed.

(* ===================================================================== *)
(** ** [dump_rttm] and the names of the sets                               *)
(* ===================================================================== *)

Lemma score_ivec_keys_normalized self max_num_speakers h h1 tr scores k :
  score_ivec self max_num_speakers h = (h1, tr, Ok scores) ->
  is_Some (scores !! k) -> PosixPath.normpath k = k.
Proof.
  intros H Hk. unfold score_ivec in H.
  destruct (score_loop_keys _ _ _ _ _ _ _ _ H) as (_ & _ & Honly).
  destruct (Honly k Hk) as [Hempty | [nm ->]].
  - rewrite lookup_empty in Hempty. destruct Hempty as [? ?]. discriminate.
  - apply normpath_idempotent.
Qed.

Lemma for_each_first_raises {X} (x : X) (xs : list X) (body : X -> M unit) h h1 t1 e :
  body x h = (h1, t1, Raise e) -> for_each (x :: xs) body h = (h1, t1, Raise e).
Proof. intros H. simpl. apply bind_Raise. exact H. Qed.

Lemma dump_ivecset_KeyError scores out_dir l h :
  let s := heap_get h l in
  0 < IvecSet.size s ->
  scores !! IvecSet.name s = None ->
  dump_ivecset scores out_dir l h =
    (dumped_heap l h,
     [ mkdir_p (PosixPath.join out_dir (PosixPath.dirname (IvecSet.name s)));
       open_w (PosixPath.join out_dir (IvecSet.name s +:+ ".rttm")) ],
     Raise (KeyError (IvecSet.name s))).
Proof.
  intros s Hs Hnone. rewrite dump_ivecset_run by exact Hs. fold s.
  unfold IvecSet.size in Hs. unfold enumerate.
  destruct (IvecSet.ivecs s) as [|v vs]; [simpl in Hs; lia|].
  simpl zip.
  erewrite for_each_first_raises; [reflexivity|].
  unfold dump_segment, dict_getitem. rewrite Hnone. reflexivity.
Qed.

(** C10 (as amended). [score_ivec] stores the scores under the normalized
    name and [dump_rttm] looks them up under the name it reads before the
    'beamformed/' rewrite.  For a set with embeddings that [dump_rttm]
    finds as it was scored: when that name is its own normal form the
    lookup succeeds; when it is not, [dump_rttm] raises [KeyError] for it
    and writes no line of its timeline. *)
Theorem dump_rttm_lookup_by_read_name self max_num_speakers out_dir h h1 tr scores l h2 :
  let s := heap_get h l in
  score_ivec self max_num_speakers h = (h1, tr, Ok scores) ->
  l ∈ ivecs self ->
  0 < IvecSet.size s ->
  heap_get h2 l = s ->
  (IvecSet.name s = PosixPath.normpath (IvecSet.name s) ->
     is_Ok (dict_getitem scores (IvecSet.name s)))
  /\ (IvecSet.name s <> PosixPath.normpath (IvecSet.name s) ->
        exists tr2,
          dump_ivecset scores out_dir l h2
            = (dumped_heap l h2, tr2, Raise (KeyError (IvecSet.name s)))
          /\ written tr2 = []).
Proof.
  intros s Hscore Hin Hs Hsame. split.
  - intros Hnorm. unfold score_ivec in Hscore.
    destruct (score_loop_keys _ _ _ _ _ _ _ _ Hscore) as (_ & Hadd & _).
    destruct (Hadd l Hin Hs) as [a Ha]. fold s in Ha. rewrite <- Hnorm in Ha.
    unfold dict_getitem. rewrite Ha. exact I.
  - intros Hne.
    assert (Hnone : scores !! IvecSet.name s = None).
    { destruct (scores !! IvecSet.name s) as [a|] eqn:E; [|reflexivity].
      exfalso. apply Hne. symmetry.
      eapply score_ivec_keys_normalized; [exact Hscore | rewrite E; eauto]. }
    pose proof (dump_ivecset_KeyError scores out_dir l h2) as Hk.
    simpl in Hk. rewrite Hsame in Hk.
    eexists. split; [apply Hk; assumption | reflexivity].
Qed.

(** *** What [dump_rttm] changes *)

Lemma set_name_name s : IvecSet.set_name (IvecSet.name s) s = s.
Proof. destruct s. reflexivity. Qed.

Lemma heap_get_dumped_heap l l' h :
  heap_get (dumped_heap l h) l' =
    if bool_decide (l = l') && Nat.ltb 0 (IvecSet.size (heap_get h l'))
    then IvecSet.set_name (dumped_name (IvecSet.name (heap_get h l'))) (heap_get h l')
    else heap_get h l'.
Proof.
  unfold dumped_heap, dumped_name. case_bool_decide as Hl; simpl.
  - subst l'. destruct (Nat.ltb_spec 0 (IvecSet.size (heap_get h l))) as [Hs|Hs]; simpl.
    + destruct (PyStr.contains "beamformed" (IvecSet.name (heap_get h l))).
      * apply heap_get_alter, heap_get_in_range, Hs.
      * symmetry. apply set_name_name.
    + reflexivity.
  - destruct (_ && _); [|reflexivity]. apply heap_get_alter_ne. exact Hl.
Qed.


(* ===================================================================== *)
(** ** [load_ivecs]                                                        *)
(* ===================================================================== *)

Lemma rstrip_idempotent s : PyStr.rstrip (PyStr.rstrip s) = PyStr.rstrip s.
Proof.
  induction s as [|c t IH]; [reflexivity|].
  simpl. destruct (PyStr.rstrip t) as [|d u] eqn:E.
  - destruct (PyStr.isspace c) eqn:Ec; [reflexivity|]. simpl. rewrite Ec. reflexivity.
  - change (PyStr.rstrip (String c (String d u)))
      with (match PyStr.rstrip (String d u) with
            | EmptyString => if PyStr.isspace c then EmptyString else String c EmptyString
            | t' => String c t'
            end).
    rewrite IH. reflexivity.
Qed.

Lemma alter_last {A} (f : A -> A) (l : list A) (x : A) :
  alter f (length l) (l ++ [x]) = l ++ [f x].
Proof. induction l as [|y l IH]; simpl; [reflexivity|]. f_equal. exact IH. Qed.

(** [load_line] does what [load_line_cases] says. *)
Lemma load_line_eq self dir line h :
  ivecs_dir self = Some dir ->
  load_line self line h = load_line_cases self dir line h.
Proof.
  intros Hdir. unfold load_line, load_line_cases, pickle_load, loading_msg, missing_msg,
    columns_msg.
  rewrite rstrip_idempotent, Hdir.
  destruct (PyStr.split (PyStr.rstrip line)) as [|nm [|token [|third more]]].
  - reflexivity.
  - cbv [mbind M_bind lift list_getitem emit try_except_IOError getattr mret M_ret
         alloc raise]. cbn [lookup list_lookup length Nat.eqb app].
    destruct (pickle_file _) as [s|]; reflexivity.
  - cbv [mbind M_bind lift list_getitem emit try_except_IOError getattr mret M_ret
         alloc raise]. cbn [lookup list_lookup length Nat.eqb app].
    destruct (PyStr.int token) as [k|]; [|reflexivity].
    destruct (pickle_file _) as [s|]; [|reflexivity].
    unfold assign_num_speakers. rewrite alter_last. reflexivity.
  - reflexivity.
Qed.

Lemma load_lines_cons self dir line rest h :
  ivecs_dir self = Some dir ->
  load_lines self (line :: rest) h =
    match load_line_cases self dir line h with
    | (h1, t1, Ok _) =>
        match load_lines self rest h1 with (h2, t2, r) => (h2, t1 ++ t2, r) end
    | (h1, t1, Raise e) => (h1, t1, Raise e)
    end.
Proof.
  intros Hdir. unfold load_lines. simpl for_each. unfold mbind, M_bind.
  rewrite (load_line_eq self dir line h Hdir). reflexivity.
Qed.

Lemma record_path_columns dir line path :
  record_path dir line = Some path ->
  PyStr.split (PyStr.rstrip line) = [recording_of line] \/
  exists token k, PyStr.split (PyStr.rstrip line) = [recording_of line; token]
                  /\ PyStr.int token = Some k.
Proof.
  unfold record_path, recording_of.
  destruct (PyStr.split (PyStr.rstrip line)) as [|nm [|token [|third more]]];
    try discriminate; [left; reflexivity|].
  destruct (PyStr.int token) as [k|] eqn:E; [|discriminate].
  right. eauto.
Qed.


(** C6 (the code departs from it for a line without columns). A line whose
    number of columns is neither one nor two aborts the load: with three
    columns or more by the [DiarizationException] of the last branch, which
    the handler of [IOError] lets through; with no column at all by the
    [IndexError] of the log line that opens the loop. *)
Theorem load_ivecs_malformed_line self dir line rest h :
  ivecs_dir self = Some dir ->
  columns line <> 1 -> columns line <> 2 ->
  exists tr,
    load_lines self (line :: rest) h =
      (h, tr,
       Raise (if Nat.eqb (columns line) 0 then IndexError
              else DiarizationException (columns_msg self)))
    /\ yielded tr = [].
Proof.
  intros Hdir H1 H2. rewrite (load_lines_cons self dir) by exact Hdir.
  unfold load_line_cases, columns in *.
  destruct (PyStr.split (PyStr.rstrip line)) as [|nm [|token [|third more]]];
    simpl in *; try congruence.
  - exists []. auto.
  - eexists. split; reflexivity.
Qed.

Lemma yielded_app t1 t2 : yielded (t1 ++ t2) = yielded t1 ++ yielded t2.
Proof. unfold yielded. apply omap_app. Qed.

(** The load of an index whose lines are all well-formed. *)
Lemma load_lines_wellformed self dir lines : forall h,
  ivecs_dir self = Some dir ->
  Forall (fun line => is_Some (record_path dir line)) lines ->
  exists tr,
    load_lines self lines h = (h ++ flat_map (loaded_of dir) lines, tr, Ok tt)
    /\ yielded tr = seq (length h) (length (flat_map (loaded_of dir) lines)).
Proof.
  induction lines as [|line lines IH]; intros h Hdir Hall.
  - exists []. simpl. rewrite app_nil_r. auto.
  - inversion Hall as [|? ? [path Hpath] Hrest]; subst.
    rewrite (load_lines_cons self dir) by exact Hdir.
    assert (Hline : exists t1,
      load_line_cases self dir line h = (h ++ loaded_of dir line, t1, Ok tt)
      /\ yielded t1 = seq (length h) (length (loaded_of dir line))).
    { unfold load_line_cases, loaded_of, declared_count.
      destruct (record_path_columns _ _ _ Hpath) as [E | (token & k & E & Hk)];
        rewrite Hpath; unfold record_path in Hpath; rewrite E in *.
      - inversion Hpath; subst path.
        destruct (pickle_file _) as [s|].
        + eexists; split; reflexivity.
        + rewrite app_nil_r. eexists; split; reflexivity.
      - rewrite Hk in *. inversion Hpath; subst path.
        destruct (pickle_file _) as [s|].
        + eexists; split; reflexivity.
        + rewrite app_nil_r. eexists; split; reflexivity. }
    destruct Hline as (t1 & -> & Hy1).
    destruct (IH (h ++ loaded_of dir line) Hdir Hrest) as (t2 & -> & Hy2).
    exists (t1 ++ t2). simpl flat_map. rewrite <- app_assoc. split; [reflexivity|].
    rewrite yielded_app, Hy1, Hy2, !length_app, seq_app. reflexivity.
Qed.

(** C7 (as amended). In an index whose lines are all [<name>] or
    [<name> <count>] with an integer count, a missing record aborts
    nothing: the load returns, and yields the set of every line whose
    record is in storage, in order and with its declared count.  A count
    that is not an integer is not tolerated: on a line [<name> <token>]
    whose token is no integer, [int] raises [ValueError], which the handler
    of [IOError] lets through, and the load stops there. *)
Theorem load_ivecs_tolerates_missing_records_only self dir lines line rest nm token h :
  ivecs_dir self = Some dir ->
  Forall (fun line => is_Some (record_path dir line)) lines ->
  PyStr.split (PyStr.rstrip line) = [nm; token] ->
  PyStr.int token = None ->
  (exists tr,
     load_lines self lines h = (h ++ flat_map (loaded_of dir) lines, tr, Ok tt)
     /\ yielded tr = seq (length h) (length (flat_map (loaded_of dir) lines)))
  /\ load_lines self (line :: rest) h = (h, [loginfo (loading_msg nm)], Raise ValueError).
Proof.
  intros Hdir Hall E Hint. split.
  - apply load_lines_wellformed; assumption.
  - rewrite (load_lines_cons self dir) by exact Hdir.
    unfold load_line_cases. rewrite E, Hint. reflexivity.
Qed.

(* ===================================================================== *)
(** ** [get_num_speakers]                                                  *)
(* ===================================================================== *)

Lemma range_empty a b : (b <= a)%Z -> range a b = [].
Proof. intros H. unfold range. replace (Z.to_nat (b - a)) with 0 by lia. reflexivity. Qed.

Lemma range_cons a b : (a < b)%Z -> range a b = a :: range (a + 1) b.
Proof.
  intros H. unfold range.
  replace (Z.to_nat (b - a)) with (S (Z.to_nat (b - (a + 1)))) by lia.
  simpl. f_equal; [lia|].
  rewrite <- seq_shift, map_map. apply map_ext. intros i. lia.
Qed.

Lemma try_num_speakers_no_s_norm self X acc k centers cs h :
  s_norm self = None ->
  sklearnKMeans k X = Ok centers ->
  PLDAKMeans centers k (plda self) X = Ok cs ->
  try_num_speakers self X acc k h =
    (h, [KMeans_fit k X; PLDAKMeans_fit centers k X], Raise (AttributeError "s_norm")).
Proof.
  intros Hs Hk Hp. unfold try_num_speakers, call, mbind, M_bind.
  rewrite Hk, Hp, Hs. reflexivity.
Qed.

(** C9 (as amended). Without a count model, that is on an object without
    the attribute [model], [get_num_speakers] returns no count: it raises,
    and leaves every set as it is.  The exception is the first one of the
    loop over the candidate counts, and the [AttributeError] for [model]
    when the loop completes; so it is the [AttributeError] for [model] when
    there is no candidate, and with candidates, on an object that has no
    attribute [s_norm] either, the [AttributeError] for [s_norm], raised
    once the first candidate is clustered. *)
Theorem get_num_speakers_without_model self X a b h :
  model self = None ->
  exists tr e,
    get_num_speakers self X a b h = (h, tr, Raise e)
    /\ e = match snd (for_fold (range a (b + 1)) (try_num_speakers self X) ([], []) h) with
           | Ok _ => AttributeError "model"
           | Raise e1 => e1
           end
    /\ ((b < a)%Z -> tr = [] /\ e = AttributeError "model")
    /\ (s_norm self = None -> (a <= b)%Z ->
        forall centers cs,
          sklearnKMeans a X = Ok centers ->
          PLDAKMeans centers a (plda self) X = Ok cs ->
          tr = [KMeans_fit a X; PLDAKMeans_fit centers a X]
          /\ e = AttributeError "s_norm").
Proof.
  intros Hmodel. unfold get_num_speakers.
  pose proof (pure_for_fold (range a (b + 1)) (try_num_speakers self X)
                (fun acc k => pure_try_num_speakers self X acc k) ([], []) h) as Hpure.
  destruct (for_fold (range a (b + 1)) (try_num_speakers self X) ([], []) h)
    as [[h1 t1] [acc|e]] eqn:Eloop; simpl in Hpure; subst h1.
  - rewrite (bind_Ok _ _ _ _ _ _ Eloop). rewrite Hmodel.
    exists (t1 ++ []), (AttributeError "model").
    split; [reflexivity|]. split; [reflexivity|]. split.
    + intros Hlt. rewrite range_empty in Eloop by lia. simpl in Eloop.
      inversion Eloop. auto.
    + intros Hs Hle centers cs Hk Hp. exfalso.
      rewrite range_cons in Eloop by lia. simpl for_fold in Eloop.
      rewrite (bind_Raise _ _ _ _ _ _
                 (try_num_speakers_no_s_norm self X ([], []) a centers cs h Hs Hk Hp))
        in Eloop.
      discriminate.
  - rewrite (bind_Raise _ _ _ _ _ _ Eloop).
    exists t1, e. split; [reflexivity|]. split; [reflexivity|]. split.
    + intros Hlt. rewrite range_empty in Eloop by lia. discriminate.
    + intros Hs Hle centers cs Hk Hp.
      rewrite range_cons in Eloop by lia. simpl for_fold in Eloop.
      rewrite (bind_Raise _ _ _ _ _ _
                 (try_num_speakers_no_s_norm self X ([], []) a centers cs h Hs Hk Hp))
        in Eloop.
      inversion Eloop. auto.
Qed.

(* ===================================================================== *)
(** ** [dump_rttm] over the collection                                     *)
(* ===================================================================== *)

Lemma dump_ivecset_empty scores out_dir l h :
  size_at h l = 0 ->
  dump_ivecset scores out_dir l h =
    (h, [logwarning ("[Diarization.dump_rttm] No i-vectors to dump in "
                       +:+ name_at h l +:+ ".")], Ok tt).
Proof.
  unfold size_at, name_at. intros Hz. unfold dump_ivecset. rewrite bind_deref, Hz.
  reflexivity.
Qed.

(** A visit changes the name of the set it visits, and nothing else. *)
Lemma ivecs_dumped_heap l l' h :
  IvecSet.ivecs (heap_get (dumped_heap l h) l') = IvecSet.ivecs (heap_get h l').
Proof. rewrite heap_get_dumped_heap. destruct (_ && _); reflexivity. Qed.

Lemma size_dumped_heap l l' h : size_at (dumped_heap l h) l' = size_at h l'.
Proof. unfold size_at, IvecSet.size. rewrite ivecs_dumped_heap. reflexivity. Qed.

Lemma visited_cons h l sets : visited h (l :: sets) = visited (dumped_heap l h) sets.
Proof. reflexivity. Qed.

(** After the visits of [sets], the name of a set with embeddings has gone
    through the rewrite once for each of its visits. *)
Lemma heap_get_visited sets : forall h l,
  heap_get (visited h sets) l =
    if Nat.ltb 0 (IvecSet.size (heap_get h l))
    then IvecSet.set_name
           (Nat.iter (count_occ Nat.eq_dec sets l) dumped_name (IvecSet.name (heap_get h l)))
           (heap_get h l)
    else heap_get h l.
Proof.
  induction sets as [|l0 sets IH]; intros h l.
  - simpl. destruct (Nat.ltb _ _); [|reflexivity]. symmetry. apply set_name_name.
  - rewrite visited_cons, IH.
    pose proof (size_dumped_heap l0 l h) as Hsz. unfold size_at in Hsz. rewrite Hsz.
    destruct (Nat.ltb 0 (IvecSet.size (heap_get h l))) eqn:Es.
    + rewrite heap_get_dumped_heap, Es.
      destruct (Nat.eq_dec l0 l) as [->|Hne].
      * rewrite count_occ_cons_eq by reflexivity.
        rewrite bool_decide_eq_true_2 by reflexivity. simpl andb. cbv iota.
        rewrite Nat.iter_succ_r. reflexivity.
      * rewrite count_occ_cons_neq by exact Hne.
        rewrite bool_decide_eq_false_2 by exact Hne. reflexivity.
    + rewrite heap_get_dumped_heap, Es, andb_false_r. reflexivity.
Qed.

Lemma heap_get_visited_notin sets h l :
  l ∉ sets -> heap_get (visited h sets) l = heap_get h l.
Proof.
  intros Hnin. rewrite heap_get_visited.
  rewrite (proj1 (count_occ_not_In Nat.eq_dec sets l)).
  - destruct (Nat.ltb _ _); [|reflexivity]. apply set_name_name.
  - intros Hin. apply Hnin, list_elem_of_In. exact Hin.
Qed.


(** An inner loop that reaches its end has written a line per segment. *)
Lemma dump_segments_count scores name reg_name path vs : forall k h h1 tr,
  for_each (zip (seq k (length vs)) vs) (dump_segment scores name reg_name path) h
    = (h1, tr, Ok tt) ->
  length (written tr) = length vs.
Proof.
  induction vs as [|v vs IH]; intros k h h1 tr H.
  - simpl in H. inversion H. reflexivity.
  - simpl in H. unfold mbind, M_bind in H.
    destruct (dump_segment scores name reg_name path (k, v) h) as [[h2 t2] r2] eqn:E.
    destruct (dump_segment_any _ _ _ _ _ _ _ _ _ _ E)
      as [(e & -> & ->) | (a & t0 & -> & -> & _ & _)]; [discriminate|].
    destruct (for_each _ _ h2) as [[h3 t3] r3] eqn:E3.
    inversion H; subst; clear H.
    change (written ([write path t0] ++ t3)) with (t0 :: written t3).
    simpl. f_equal. eapply IH. exact E3.
Qed.

Lemma dump_ivecset_count scores out_dir l h h1 tr :
  dump_ivecset scores out_dir l h = (h1, tr, Ok tt) ->
  length (written tr) = size_at h l.
Proof.
  intros H. destruct (Nat.eq_dec (size_at h l) 0) as [Hz|Hnz].
  - rewrite Hz. rewrite (dump_ivecset_empty scores out_dir l h Hz) in H.
    inversion H. reflexivity.
  - assert (Hs : 0 < IvecSet.size (heap_get h l)) by (unfold size_at in Hnz; lia).
    rewrite dump_ivecset_run in H by exact Hs. unfold enumerate in H.
    destruct (for_each _ _ _) as [[h2 t2] r2] eqn:E. inversion H; subst; clear H.
    change (written (?e1 :: ?e2 :: t2)) with (written t2).
    apply (dump_segments_count _ _ _ _ _ _ _ _ _ E).
Qed.

(** The lines that the loop of [dump_rttm] writes, set by set: whatever
    the outcome, each is the line of its segment, and a loop that returns
    has written a line for every segment of every set. *)
Lemma dump_loop_lines scores out_dir sets : forall h h2 tr r,
  for_each sets (dump_ivecset scores out_dir) h = (h2, tr, r) ->
  exists lines : list (list rttm),
    written tr = concat lines
    /\ length lines <= length sets
    /\ (r = Ok tt -> Forall2 (fun l ls => length ls = size_at h l) sets lines)
    /\ forall n l ls, sets !! n = Some l -> lines !! n = Some ls ->
         let s := heap_get (visited h (take n sets)) l in
         forall i t, ls !! i = Some t ->
           exists v a, IvecSet.ivecs s !! i = Some v /\ scores !! IvecSet.name s = Some a
                       /\ is_segment_line a (Re.sub_slash_rest (dumped_name (IvecSet.name s)))
                            i v t.
Proof.
  induction sets as [|l0 sets IH]; intros h h2 tr r H.
  - simpl in H. inversion H; subst. exists []. simpl. split; [reflexivity|].
    split; [lia|]. split; [constructor|]. intros n l ls Hn. discriminate.
  - simpl for_each in H. unfold mbind, M_bind in H.
    pose proof (dump_ivecset_heap scores out_dir l0 h) as Hh.
    pose proof (dump_rttm_lines_sound scores out_dir l0 h) as Hsound.
    destruct (dump_ivecset scores out_dir l0 h) as [[h1 t1] r1] eqn:E1.
    simpl in Hh, Hsound. subst h1.
    destruct r1 as [[]|e].
    + destruct (for_each sets _ (dumped_heap l0 h)) as [[h3 t3] r3] eqn:E3.
      injection H as <- <- <-.
      destruct (IH _ _ _ _ E3) as (lines & Hcat & Hlen & Hall & Hlines).
      exists (written t1 :: lines). split; [|split; [|split]].
      * rewrite written_app, Hcat. reflexivity.
      * simpl. lia.
      * intros Hr. constructor; [apply (dump_ivecset_count _ _ _ _ _ _ E1)|].
        eapply Forall2_impl; [exact (Hall Hr)|].
        intros l ls Hl. simpl in Hl. rewrite Hl. apply size_dumped_heap.
      * intros [|n] l ls Hn Hls; simpl in Hn, Hls.
        -- inversion Hn; inversion Hls; subst. simpl. intros i t Ht.
           apply (Hsound i t Ht).
        -- simpl take. rewrite visited_cons. apply (Hlines n l ls Hn Hls).
    + injection H as <- <- <-.
      exists [written t1]. split; [|split; [|split]].
      * simpl. rewrite app_nil_r. reflexivity.
      * simpl. lia.
      * discriminate.
      * intros [|n] l ls Hn Hls; simpl in Hn, Hls.
        -- inversion Hn; inversion Hls; subst. simpl. intros i t Ht.
           apply (Hsound i t Ht).
        -- destruct n; discriminate.
Qed.

(** C2. The tuples that [dump_rttm] supplies, set by set of the
    collection in order: whatever the outcome of the run, line [i] of a
    set has the start [window_start / 1000] and the duration
    [(window_end - window_start) / 1000] of the set's segment [i], and as
    speaker the 0-based index of the first maximum of column [i] of the
    matrix that [scores] holds under the name of the set, as [dump_rttm]
    finds the set (as it was given, unless an earlier place of the
    collection holds the same set); and when [dump_rttm] returns, every
    set has a line for every one of its segments. *)
Theorem dump_rttm_segment_lines self scores out_dir h h2 tr r :
  dump_rttm self scores out_dir h = (h2, tr, r) ->
  exists lines : list (list rttm),
    written tr = concat lines
    /\ length lines <= length (ivecs self)
    /\ (r = Ok tt -> Forall2 (fun l ls => length ls = size_at h l) (ivecs self) lines)
    /\ forall n l ls, ivecs self !! n = Some l -> lines !! n = Some ls ->
         let s := heap_get (visited h (take n (ivecs self))) l in
         IvecSet.ivecs s = IvecSet.ivecs (heap_get h l)
         /\ (l ∉ take n (ivecs self) -> s = heap_get h l)
         /\ forall i t, ls !! i = Some t ->
              exists v a,
                IvecSet.ivecs s !! i = Some v
                /\ scores !! IvecSet.name s = Some a
                /\ rttm_start t = (inject_Z (window_start v) / 1000)%Q
                /\ rttm_duration t = (inject_Z (window_end v - window_start v) / 1000)%Q
                /\ is_argmax (Numpy.column a i) (rttm_speaker t).
Proof.
  intros H. unfold dump_rttm in H.
  destruct (dump_loop_lines _ _ _ _ _ _ _ H) as (lines & Hcat & Hlen & Hall & Hlines).
  exists lines. split; [exact Hcat|]. split; [exact Hlen|]. split; [exact Hall|].
  intros n l ls Hn Hls s. split; [|split].
  - unfold s. rewrite heap_get_visited. destruct (Nat.ltb _ _); reflexivity.
  - intros Hnin. apply heap_get_visited_notin. exact Hnin.
  - intros i t Ht.
    destruct (Hlines n l ls Hn Hls i t Ht) as (v & a & Hv & Ha & _ & H1 & H2 & H3).
    exists v, a. auto.
Qed.


(* ===================================================================== *)
(** ** Further properties of the class                                     *)
(* ===================================================================== *)

(** *** [get_ivec] *)

Lemma get_ivec_from_found name pre : forall l post h,
  Forall (fun l' => name_at h l' <> name) pre ->
  name_at h l = name ->
  get_ivec_from name (pre ++ l :: post) h =
    (h, map (fun l' => print_ (name_at h l')) (pre ++ [l]), Ok l).
Proof.
  induction pre as [|p pre IH]; intros l post h Hpre Hl; simpl.
  - rewrite bind_deref, bind_emit. unfold name_at in *.
    destruct (String.eqb_spec name (IvecSet.name (heap_get h l))) as [_|E];
      [reflexivity | congruence].
  - apply Forall_cons in Hpre as [Hp Hrest].
    rewrite bind_deref, bind_emit. unfold name_at in Hp.
    destruct (String.eqb_spec name (IvecSet.name (heap_get h p))) as [E|_];
      [exfalso; apply Hp; symmetry; exact E|].
    rewrite (IH l post h Hrest Hl). reflexivity.
Qed.

(** X1. [get_ivec] returns the first set of the collection that has the
    name: the sets before it are passed over, the sets after it are not
    looked at; it prints the name of every set it looks at and changes no
    set.  What it returns is the object itself, not a copy. *)
Theorem get_ivec_first_match self name pre l post h :
  ivecs self = pre ++ l :: post ->
  Forall (fun l' => name_at h l' <> name) pre ->
  name_at h l = name ->
  get_ivec self name h =
    (h, map (fun l' => print_ (name_at h l')) (pre ++ [l]), Ok l).
Proof.
  intros Hsets Hpre Hl. unfold get_ivec. rewrite Hsets.
  apply get_ivec_from_found; assumption.
Qed.

(** X2. When no set of the collection has the name, [get_ivec] looks at
    every set, printing its name, and raises [DiarizationException]; it
    changes no set.  So it does on an empty collection. *)
Theorem get_ivec_not_found self name h :
  Forall (fun l => name_at h l <> name) (ivecs self) ->
  get_ivec self name h =
    (h, map (fun l => print_ (name_at h l)) (ivecs self),
     Raise (DiarizationException (not_found_msg name))).
Proof.
  unfold get_ivec. induction (ivecs self) as [|p ls IH]; intros Hall; simpl.
  - reflexivity.
  - apply Forall_cons in Hall as [Hp Hrest].
    rewrite bind_deref, bind_emit. unfold name_at in Hp.
    destruct (String.eqb_spec name (IvecSet.name (heap_get h p))) as [E|_];
      [exfalso; apply Hp; symmetry; exact E|].
    rewrite (IH Hrest). reflexivity.
Qed.

(** *** [variational_bayes] *)

Lemma variational_bayes_loop (sets : list loc) : forall h,
  for_each sets (fun l =>
    ivecset ← deref l;
    if Nat.ltb 0 (IvecSet.size ivecset) then
      _ ← lift (list_getitem (IvecSet.ivecs ivecset) 0);
      mret tt
    else
      emit (logwarning ("[Diarization.variational_bayes] No i-vectors in "
                          +:+ IvecSet.name ivecset +:+ "."))) h
  = (h,
     flat_map (fun l => if Nat.ltb 0 (size_at h l) then []
                        else [logwarning (no_ivecs_msg (name_at h l))]) sets,
     Ok tt).
Proof.
  induction sets as [|l ls IH]; intros h; [reflexivity|].
  simpl for_each. simpl flat_map.
  match goal with |- (?m ≫= ?f) h = _ =>
    assert (Hbody : m h = (h, if Nat.ltb 0 (size_at h l) then []
                              else [logwarning (no_ivecs_msg (name_at h l))], Ok tt))
  end.
  { rewrite bind_deref. unfold size_at, name_at, no_ivecs_msg.
    destruct (Nat.ltb_spec 0 (IvecSet.size (heap_get h l))) as [Hs|Hs]; [|reflexivity].
    unfold IvecSet.size in Hs.
    destruct (IvecSet.ivecs (heap_get h l)) as [|v vs] eqn:E; [simpl in Hs; lia|].
    reflexivity. }
  rewrite (bind_Ok _ _ _ _ _ _ Hbody), IH. reflexivity.
Qed.

(** X3. [variational_bayes] never raises and never uses [scores]: it leaves
    every set as it is, and all it does is to log one warning for each set
    of the collection that has no i-vectors, in order. *)
Theorem variational_bayes_only_warns self scores h :
  variational_bayes self scores h =
    (h,
     flat_map (fun l => if Nat.ltb 0 (size_at h l) then []
                        else [logwarning (no_ivecs_msg (name_at h l))]) (ivecs self),
     Ok tt).
Proof. unfold variational_bayes. apply variational_bayes_loop. Qed.

(** *** [load_ivecs] and the constructor *)

Lemma for_each_app {X} (xs ys : list X) (body : X -> M unit) h :
  for_each (xs ++ ys) body h =
    match for_each xs body h with
    | (h1, t1, Ok _) =>
        match for_each ys body h1 with (h2, t2, r) => (h2, t1 ++ t2, r) end
    | (h1, t1, Raise e) => (h1, t1, Raise e)
    end.
Proof.
  revert h. induction xs as [|x xs IH]; intros h; simpl.
  - unfold mret, M_ret. destruct (for_each ys body h) as [[h2 t2] r]. reflexivity.
  - unfold mbind, M_bind. destruct (body x h) as [[h1 t1] [u|e]]; [|reflexivity].
    rewrite IH. destruct (for_each xs body h1) as [[h2 t2] [u2|e2]].
    + destruct (for_each ys body h2) as [[h3 t3] r3]. rewrite app_assoc. reflexivity.
    + reflexivity.
Qed.

Lemma load_line_cases_appends self dir line h :
  exists new t r,
    load_line_cases self dir line h = (h ++ new, t, r)
    /\ yielded t = seq (length h) (length new)
    /\ (forall e, r = Raise e -> new = []).
Proof.
  unfold load_line_cases.
  destruct (PyStr.split (PyStr.rstrip line)) as [|nm [|token [|third more]]].
  - exists [], [], (Raise IndexError). rewrite app_nil_r. auto.
  - destruct (pickle_file _) as [s|].
    + eexists [s], _, _. repeat split. intros e He. discriminate.
    + eexists [], _, _. rewrite app_nil_r. repeat split.
  - destruct (PyStr.int token) as [k|].
    + destruct (pickle_file _) as [s|].
      * eexists [_], _, _. repeat split. intros e He. discriminate.
      * eexists [], _, _. rewrite app_nil_r. repeat split.
    + eexists [], _, _. rewrite app_nil_r. repeat split.
  - eexists [], _, _. rewrite app_nil_r. repeat split.
Qed.

(** X4. Whatever the index holds and however the load ends, [load_ivecs]
    only adds objects: the sets that were in memory are left as they are,
    every set it yields is a new object, and the new objects are exactly
    the yielded ones, in order. *)
Theorem load_ivecs_only_appends self dir lines h :
  ivecs_dir self = Some dir ->
  exists new tr r,
    load_lines self lines h = (h ++ new, tr, r)
    /\ yielded tr = seq (length h) (length new).
Proof.
  intros Hdir. revert h. induction lines as [|line lines IH]; intros h.
  - exists [], [], (Ok tt). simpl. rewrite app_nil_r. auto.
  - rewrite (load_lines_cons self dir) by exact Hdir.
    destruct (load_line_cases_appends self dir line h) as (n1 & t1 & r1 & -> & Hy1 & _).
    destruct r1 as [u|e].
    + destruct (IH (h ++ n1)) as (n2 & t2 & r2 & -> & Hy2).
      exists (n1 ++ n2), (t1 ++ t2), r2. rewrite <- app_assoc. split; [reflexivity|].
      rewrite yielded_app, Hy1, Hy2, !length_app, seq_app. reflexivity.
    + exists n1, t1, (Raise e). auto.
Qed.

(** X5. The count of a line [<name> <count>] is taken as it is: any integer
    that [int] reads, zero and negative ones too, becomes the speaker
    count of the loaded set, in place of the count that was pickled; the
    name and the i-vectors are those of the pickle.  The load goes on. *)
Theorem load_ivecs_takes_any_count self dir line rest nm token k s h :
  ivecs_dir self = Some dir ->
  PyStr.split (PyStr.rstrip line) = [nm; token] ->
  PyStr.int token = Some k ->
  pickle_file (PosixPath.join dir (nm +:+ ".pkl")) = Some s ->
  load_lines self (line :: rest) h =
    match load_lines self rest
            (h ++ [IvecSet.mk (IvecSet.name s) (Some k) (IvecSet.ivecs s)]) with
    | (h', tr, r) => (h', [loginfo (loading_msg nm); yield_ (length h)] ++ tr, r)
    end.
Proof.
  intros Hdir Hsplit Hint Hfile. rewrite (load_lines_cons self dir) by exact Hdir.
  unfold load_line_cases. rewrite Hsplit, Hint, Hfile. reflexivity.
Qed.

(** X6. Over a directory and an index whose lines are all [<name>] or
    [<name> <count>] with an integer count, the constructor returns an
    object whose sets are the records that are in storage, in the order of
    the index, each a new object of its own; [norm] and [plda] are as
    given, and the object has neither [s_norm] nor [model]. *)
Theorem init_over_directory list_path dir norm plda lines h :
  index_file list_path = Some lines ->
  Forall (fun line => is_Some (record_path dir line)) lines ->
  let loaded := flat_map (loaded_of dir) lines in
  let sets := seq (length h) (length loaded) in
  exists tr,
    init list_path (inl dir) norm plda h =
      (h ++ loaded, tr, Ok (mk_Diarization list_path (Some dir) sets norm plda None None))
    /\ NoDup sets
    /\ forall i s, loaded !! i = Some s -> heap_get (h ++ loaded) (length h + i) = s.
Proof.
  intros Hidx Hall loaded sets. unfold init, list_of, load_ivecs. cbn [input_list].
  rewrite Hidx.
  destruct (load_lines_wellformed
              (mk_Diarization list_path (Some dir) [] norm plda None None) dir lines h
              eq_refl Hall) as (tr & Hrun & Hy).
  exists tr. split; [|split].
  - unfold mbind, M_bind. rewrite Hrun. fold loaded. rewrite Hy. simpl.
    rewrite app_nil_r. reflexivity.
  - apply NoDup_seq.
  - intros i s Hi. unfold heap_get.
    rewrite lookup_app_r by lia. replace (length h + i - length h) with i by lia.
    rewrite Hi. reflexivity.
Qed.

(** X7. The constructor builds nothing when the load raises: after lines
    that load, the first line on which [load_ivecs] raises makes the
    constructor raise the same exception; the sets of the lines before it
    stay in memory, and no line after it is read. *)
Theorem init_stops_at_bad_line list_path dir norm plda good bad rest h e :
  let self := mk_Diarization list_path (Some dir) [] norm plda None None in
  let loaded := flat_map (loaded_of dir) good in
  index_file list_path = Some (good ++ bad :: rest) ->
  Forall (fun line => is_Some (record_path dir line)) good ->
  snd (load_line self bad (h ++ loaded)) = Raise e ->
  exists tr,
    init list_path (inl dir) norm plda h = (h ++ loaded, tr, Raise e)
    /\ yielded tr = seq (length h) (length loaded).
Proof.
  intros self loaded Hidx Hgood Hbad.
  destruct (load_lines_wellformed self dir good h eq_refl Hgood) as (t1 & Hrun & Hy).
  fold loaded in Hrun, Hy.
  rewrite (load_line_eq self dir bad (h ++ loaded) eq_refl) in Hbad.
  destruct (load_line_cases_appends self dir bad (h ++ loaded))
    as (n1 & t2 & r1 & Hcase & Hy2 & Hnil).
  rewrite Hcase in Hbad. simpl in Hbad. subst r1.
  rewrite (Hnil e eq_refl) in Hcase, Hy2. rewrite app_nil_r in Hcase.
  assert (Hload : load_lines self (good ++ bad :: rest) h
                  = (h ++ loaded, t1 ++ t2, Raise e)).
  { unfold load_lines in *. rewrite for_each_app, Hrun.
    simpl for_each. unfold mbind, M_bind.
    rewrite (load_line_eq self dir bad (h ++ loaded) eq_refl), Hcase. reflexivity. }
  exists (t1 ++ t2). split.
  - unfold init, list_of, load_ivecs, mbind, M_bind. cbn [input_list].
    rewrite Hidx. fold self. rewrite Hload. reflexivity.
  - rewrite yielded_app, Hy, Hy2. simpl. rewrite app_nil_r. reflexivity.
Qed.

(** X8. A missing index file is not tolerated as a missing pickle is: the
    constructor raises [IOError] before it reads, logs or loads anything. *)
Theorem init_missing_index list_path dir norm plda h :
  index_file list_path = None ->
  init list_path (inl dir) norm plda h = (h, [], Raise IOError).
Proof.
  intros Hidx. unfold init, list_of, load_ivecs, mbind, M_bind. cbn [input_list].
  rewrite Hidx. reflexivity.
Qed.

(** *** The mapping that [score_ivec] returns *)

Lemma for_fold_app {X S} (xs ys : list X) (body : S -> X -> M S) s h :
  for_fold (xs ++ ys) body s h =
    match for_fold xs body s h with
    | (h1, t1, Ok s1) =>
        match for_fold ys body s1 h1 with (h2, t2, r) => (h2, t1 ++ t2, r) end
    | (h1, t1, Raise e) => (h1, t1, Raise e)
    end.
Proof.
  revert s h. induction xs as [|x xs IH]; intros s h; simpl.
  - unfold mret, M_ret. destruct (for_fold ys body s h) as [[h2 t2] r]. reflexivity.
  - unfold mbind, M_bind. destruct (body s x h) as [[h1 t1] [s1|e]]; [|reflexivity].
    rewrite IH. destruct (for_fold xs body s1 h1) as [[h2 t2] [s2|e2]].
    + destruct (for_fold ys body s2 h2) as [[h3 t3] r3]. rewrite app_assoc. reflexivity.
    + reflexivity.
Qed.

Lemma score_ivecset_inv self max_num_speakers d l h h1 tr d1 :
  score_ivecset self max_num_speakers d l h = (h1, tr, Ok d1) ->
  h1 = h /\
  ((size_at h l = 0 /\ d1 = d) \/
   (0 < size_at h l /\
    exists tr1 cs a,
      estimate_centroids self (heap_get h l) (IvecSet.get_all (heap_get h l))
        max_num_speakers h = (h, tr1, Ok cs)
      /\ score_matrix self (IvecSet.get_all (heap_get h l)) cs = Ok a
      /\ d1 = <[key_at h l := a]> d)).
Proof.
  intros H. pose proof (pure_score_ivecset self max_num_speakers d l h) as Hp.
  rewrite H in Hp. simpl in Hp. split; [exact Hp|]. subst h1.
  unfold size_at, key_at, name_at.
  destruct (Nat.eq_dec (IvecSet.size (heap_get h l)) 0) as [Hz|Hnz].
  - left. split; [exact Hz|].
    rewrite (score_ivecset_skip self max_num_speakers d l h Hz) in H.
    inversion H. reflexivity.
  - right. assert (Hs : 0 < IvecSet.size (heap_get h l)) by lia. split; [exact Hs|].
    rewrite score_ivecset_run in H by exact Hs.
    pose proof (pure_estimate_centroids self (heap_get h l)
                  (IvecSet.get_all (heap_get h l)) max_num_speakers h) as Hpe.
    destruct (estimate_centroids self (heap_get h l) (IvecSet.get_all (heap_get h l))
                max_num_speakers h) as [[h2 tr2] [cs|e]]; [|discriminate].
    simpl in Hpe. subst h2. simpl in H.
    destruct (score_matrix self (IvecSet.get_all (heap_get h l)) cs) as [a|e] eqn:Ea;
      [|discriminate].
    inversion H. exists tr2, cs, a. auto.
Qed.

Lemma score_loop_dom self max_num_speakers ls : forall d h h1 tr d1,
  for_fold ls (score_ivecset self max_num_speakers) d h = (h1, tr, Ok d1) ->
  forall k, is_Some (d1 !! k) <->
    is_Some (d !! k) \/ exists l, l ∈ ls /\ 0 < size_at h l /\ k = key_at h l.
Proof.
  induction ls as [|l ls IH]; intros d h h1 tr d1 H k.
  - simpl in H. inversion H; subst. split; [auto|].
    intros [Hk | (l & Hl & _)]; [exact Hk | inversion Hl].
  - simpl in H. unfold mbind, M_bind in H.
    destruct (score_ivecset self max_num_speakers d l h) as [[h2 tr2] [d2|e]] eqn:Eb;
      [|discriminate].
    destruct (score_ivecset_inv _ _ _ _ _ _ _ _ Eb) as [-> Hcase].
    destruct (for_fold ls _ d2 h) as [[h3 tr3] r3] eqn:El.
    inversion H; subst; clear H.
    rewrite (IH _ _ _ _ _ El k).
    destruct Hcase as [[Hz ->] | (Hs & tr1 & cs & a & _ & _ & ->)].
    + split.
      * intros [Hk | (l' & Hl' & Hs' & Hk)]; [left; exact Hk|].
        right. exists l'. split; [right; exact Hl' | auto].
      * intros [Hk | (l' & Hl' & Hs' & Hk)]; [left; exact Hk|].
        apply elem_of_cons in Hl' as [-> | Hl']; [lia|].
        right. exists l'. auto.
    + rewrite lookup_insert. split.
      * intros [Hk | (l' & Hl' & Hs' & Hk)].
        -- case_decide as E; [|left; exact Hk].
           right. exists l. split; [left | auto].
        -- right. exists l'. split; [right; exact Hl' | auto].
      * intros [Hk | (l' & Hl' & Hs' & Hk)].
        -- left. case_decide; [eauto | exact Hk].
        -- apply elem_of_cons in Hl' as [-> | Hl'].
           ++ left. case_decide; [eauto | congruence].
           ++ right. exists l'. auto.
Qed.

(** X9. The mapping that [score_ivec] returns has an entry exactly for the
    normalized names of the sets of the collection that have i-vectors:
    nothing for a set without i-vectors, and no other key. *)
Theorem score_ivec_keys self max_num_speakers h h1 tr scores k :
  score_ivec self max_num_speakers h = (h1, tr, Ok scores) ->
  is_Some (scores !! k) <->
  exists l, l ∈ ivecs self /\ 0 < size_at h l /\ k = key_at h l.
Proof.
  intros H. unfold score_ivec in H.
  rewrite (score_loop_dom _ _ _ _ _ _ _ _ H k). split.
  - intros [Hk | Hl]; [|exact Hl].
    rewrite lookup_empty in Hk. destruct Hk as [? ?]. discriminate.
  - intros Hl. right. exact Hl.
Qed.

Lemma score_loop_other_key self max_num_speakers ls : forall d h h1 tr d1 k,
  for_fold ls (score_ivecset self max_num_speakers) d h = (h1, tr, Ok d1) ->
  Forall (fun l => 0 < size_at h l -> key_at h l <> k) ls ->
  d1 !! k = d !! k.
Proof.
  induction ls as [|l ls IH]; intros d h h1 tr d1 k H Hall.
  - simpl in H. inversion H. reflexivity.
  - simpl in H. unfold mbind, M_bind in H.
    destruct (score_ivecset self max_num_speakers d l h) as [[h2 tr2] [d2|e]] eqn:Eb;
      [|discriminate].
    destruct (score_ivecset_inv _ _ _ _ _ _ _ _ Eb) as [-> Hcase].
    destruct (for_fold ls _ d2 h) as [[h3 tr3] r3] eqn:El.
    inversion H; subst; clear H.
    apply Forall_cons in Hall as [Hl Hrest].
    rewrite (IH _ _ _ _ _ k El Hrest).
    destruct Hcase as [[_ ->] | (Hs & tr1 & cs & a & _ & _ & ->)]; [reflexivity|].
    apply lookup_insert_ne. apply Hl. exact Hs.
Qed.

Lemma score_loop_entry self max_num_speakers pre l post d h h1 tr d1 :
  for_fold (pre ++ l :: post) (score_ivecset self max_num_speakers) d h = (h1, tr, Ok d1) ->
  0 < size_at h l ->
  Forall (fun l' => 0 < size_at h l' -> key_at h l' <> key_at h l) post ->
  exists tr1 cs a,
    estimate_centroids self (heap_get h l) (IvecSet.get_all (heap_get h l))
      max_num_speakers h = (h, tr1, Ok cs)
    /\ score_matrix self (IvecSet.get_all (heap_get h l)) cs = Ok a
    /\ d1 !! key_at h l = Some a.
Proof.
  intros H Hs Hpost. rewrite for_fold_app in H.
  pose proof (pure_for_fold pre (score_ivecset self max_num_speakers)
                (fun s x => pure_score_ivecset self max_num_speakers s x) d h) as Hp.
  destruct (for_fold pre _ d h) as [[h2 t2] [d2|e]]; [|discriminate].
  simpl in Hp. subst h2. simpl for_fold in H. unfold mbind, M_bind in H.
  destruct (score_ivecset self max_num_speakers d2 l h) as [[h3 t3] [d3|e]] eqn:Eb;
    [|discriminate].
  destruct (score_ivecset_inv _ _ _ _ _ _ _ _ Eb) as [-> Hcase].
  destruct (for_fold post _ d3 h) as [[h4 t4] r4] eqn:El.
  inversion H; subst; clear H.
  destruct Hcase as [[Hz _] | (_ & tr1 & cs & a & Hest & Hsc & ->)]; [lia|].
  exists tr1, cs, a. split; [exact Hest|]. split; [exact Hsc|].
  rewrite (score_loop_other_key _ _ _ _ _ _ _ _ _ El Hpost).
  apply lookup_insert_eq.
Qed.


(** X10. Under a key, the mapping that [score_ivec] returns holds the
    matrix of the last set with i-vectors that has that normalized name:
    the scores of that set against the centroids estimated for it.  Sets
    whose names normalize to one path share one entry, and the later set
    replaces the earlier. *)
Theorem score_ivec_last_set_wins self max_num_speakers pre l post h h1 tr scores :
  score_ivec self max_num_speakers h = (h1, tr, Ok scores) ->
  ivecs self = pre ++ l :: post ->
  0 < size_at h l ->
  Forall (fun l' => 0 < size_at h l' -> key_at h l' <> key_at h l) post ->
  exists tr1 cs a,
    estimate_centroids self (heap_get h l) (IvecSet.get_all (heap_get h l))
      max_num_speakers h = (h, tr1, Ok cs)
    /\ score_matrix self (IvecSet.get_all (heap_get h l)) cs = Ok a
    /\ scores !! key_at h l = Some a.
Proof.
  intros H Hsets Hs Hpost. unfold score_ivec in H. rewrite Hsets in H.
  eapply score_loop_entry; eassumption.
Qed.

(** X11. [score_ivec] recovers from nothing: if k-means raises for one set
    of the collection that has i-vectors and a declared count (as for more
    speakers than i-vectors), then [score_ivec] raises and returns no
    scores at all, also none for the sets it scored before. *)
Theorem score_ivec_aborts_on_kmeans_error self max_num_speakers l k e h :
  l ∈ ivecs self ->
  0 < size_at h l ->
  IvecSet.num_speakers (heap_get h l) = Some k ->
  sklearnKMeans k (IvecSet.get_all (heap_get h l)) = Raise e ->
  exists tr e', score_ivec self max_num_speakers h = (h, tr, Raise e').
Proof.
  intros Hin Hs Hk Hkm. unfold score_ivec. generalize (∅ : scores_t).
  induction (ivecs self) as [|l0 ls IH]; intros d; [inversion Hin|].
  simpl for_fold. unfold mbind, M_bind.
  pose proof (pure_score_ivecset self max_num_speakers d l0 h) as Hp.
  destruct (score_ivecset self max_num_speakers d l0 h) as [[h2 t2] [d2|e2]] eqn:Eb;
    simpl in Hp; subst h2.
  - apply elem_of_cons in Hin as [-> | Hin].
    + exfalso. rewrite score_ivecset_run in Eb by exact Hs.
      unfold estimate_centroids in Eb. rewrite Hk in Eb.
      unfold mbind, M_bind, call in Eb. rewrite Hkm in Eb. discriminate.
    + destruct (IH Hin d2) as (tr & e' & ->). eauto.
  - eauto.
Qed.

(** *** [score_ivec], then [dump_rttm] *)

(** A visit that finds the matrix of its set raises no [KeyError]. *)
Lemma dump_segment_no_KeyError scores name reg_name path entry h a k :
  scores !! name = Some a ->
  snd (dump_segment scores name reg_name path entry h) <> Raise (KeyError k).
Proof.
  intros Ha. unfold dump_segment, dict_getitem. rewrite Ha.
  rewrite (bind_lift_Ok _ _ _ a) by reflexivity.
  unfold Numpy.getitem. destruct (Nat.ltb _ _).
  - rewrite (bind_lift_Ok _ _ _ (Numpy.row (Numpy.T a) (fst entry))) by reflexivity.
    destruct (Numpy.row (Numpy.T a) (fst entry)) as [|x t]; simpl; discriminate.
  - simpl. discriminate.
Qed.

Lemma dump_segments_no_KeyError scores name reg_name path a k es : forall h,
  scores !! name = Some a ->
  snd (for_each es (dump_segment scores name reg_name path) h) <> Raise (KeyError k).
Proof.
  induction es as [|e es IH]; intros h Ha; [simpl; discriminate|].
  simpl for_each. unfold mbind, M_bind.
  pose proof (dump_segment_no_KeyError scores name reg_name path e h a k Ha) as He.
  destruct (dump_segment scores name reg_name path e h) as [[h1 t1] [u|e1]]; simpl in He.
  - pose proof (IH h1 Ha) as Hrest.
    destruct (for_each es _ h1) as [[h2 t2] r2]. exact Hrest.
  - exact He.
Qed.

Lemma dump_ivecset_no_KeyError scores out_dir l h k :
  (0 < size_at h l -> is_Some (scores !! name_at h l)) ->
  snd (dump_ivecset scores out_dir l h) <> Raise (KeyError k).
Proof.
  intros Hkey. destruct (Nat.eq_dec (size_at h l) 0) as [Hz|Hnz].
  - rewrite (dump_ivecset_empty scores out_dir l h Hz). discriminate.
  - assert (Hs : 0 < size_at h l) by lia. destruct (Hkey Hs) as [a Ha].
    unfold size_at in Hs. rewrite dump_ivecset_run by exact Hs.
    pose proof (dump_segments_no_KeyError scores (IvecSet.name (heap_get h l))
                  (Re.sub_slash_rest (dumped_name (IvecSet.name (heap_get h l))))
                  (PosixPath.join out_dir (IvecSet.name (heap_get h l) +:+ ".rttm"))
                  a k (enumerate (IvecSet.ivecs (heap_get h l))) (dumped_heap l h) Ha) as Hk.
    destruct (for_each _ _ _) as [[h2 t2] r2]. exact Hk.
Qed.

Lemma dump_loop_no_KeyError scores out_dir h k ls : forall h',
  NoDup ls ->
  (forall l, l ∈ ls -> heap_get h' l = heap_get h l) ->
  (forall l, l ∈ ls -> 0 < size_at h l -> is_Some (scores !! name_at h l)) ->
  snd (for_each ls (dump_ivecset scores out_dir) h') <> Raise (KeyError k).
Proof.
  induction ls as [|l ls IH]; intros h' Hnd Hsame Hkeys; [simpl; discriminate|].
  apply NoDup_cons in Hnd as [Hnin Hnd].
  assert (Hl : heap_get h' l = heap_get h l) by (apply Hsame; left).
  simpl for_each. unfold mbind, M_bind.
  pose proof (dump_ivecset_heap scores out_dir l h') as Hh.
  pose proof (dump_ivecset_no_KeyError scores out_dir l h' k) as Hv.
  destruct (dump_ivecset scores out_dir l h') as [[h1 t1] [u|e]]; simpl in Hh, Hv; subst h1.
  - assert (Hrest : snd (for_each ls (dump_ivecset scores out_dir) (dumped_heap l h'))
                    <> Raise (KeyError k)).
    { apply IH; [exact Hnd | | intros l' Hl'; apply Hkeys; right; exact Hl'].
      intros l' Hl'. rewrite heap_get_dumped_heap.
      case_bool_decide as E; [subst; contradiction|]. simpl. apply Hsame. right. exact Hl'. }
    destruct (for_each ls _ _) as [[h2 t2] r2]. exact Hrest.
  - apply Hv. unfold size_at, name_at. rewrite Hl. apply Hkeys. left.
Qed.

(** X12. [score_ivec] and [dump_rttm] fit together on the names: over a
    collection of distinct sets whose names are normalized paths, run on
    the scores that [score_ivec] returned, [dump_rttm] raises no
    [KeyError]; every set with i-vectors finds a matrix under the name that
    [dump_rttm] reads. *)
Theorem score_then_dump_no_KeyError self max_num_speakers out_dir h h1 tr scores k :
  score_ivec self max_num_speakers h = (h1, tr, Ok scores) ->
  NoDup (ivecs self) ->
  Forall (fun l => key_at h l = name_at h l) (ivecs self) ->
  snd (dump_rttm self scores out_dir h) <> Raise (KeyError k).
Proof.
  intros Hscore Hnd Hnorm. unfold dump_rttm.
  apply (dump_loop_no_KeyError scores out_dir h k (ivecs self) h Hnd).
  - reflexivity.
  - intros l Hin Hs. unfold score_ivec in Hscore.
    destruct (score_loop_keys _ _ _ _ _ _ _ _ Hscore) as (_ & Hadd & _).
    pose proof (Hadd l Hin Hs) as Hkey.
    rewrite Forall_forall in Hnorm. pose proof (Hnorm l Hin) as Hn.
    unfold key_at, name_at in Hn. unfold name_at. rewrite <- Hn. exact Hkey.
Qed.

(** X13. [dump_rttm] is not to be run twice over a renamed set: the second
    visit reads the name that the first visit left, and unless the scores
    have a key for that name too, it raises [KeyError] for it. *)
Theorem dump_rttm_second_visit_KeyError scores out_dir l h :
  0 < size_at h l ->
  scores !! dumped_name (name_at h l) = None ->
  let h1 := fst (fst (dump_ivecset scores out_dir l h)) in
  name_at h1 l = dumped_name (name_at h l)
  /\ snd (dump_ivecset scores out_dir l h1) = Raise (KeyError (dumped_name (name_at h l))).
Proof.
  intros Hs Hnone h1. unfold h1. rewrite dump_ivecset_heap.
  assert (Hget : heap_get (dumped_heap l h) l =
                 IvecSet.set_name (dumped_name (name_at h l)) (heap_get h l)).
  { rewrite heap_get_dumped_heap. rewrite bool_decide_eq_true_2 by reflexivity.
    unfold size_at in Hs. destruct (Nat.ltb_spec 0 (IvecSet.size (heap_get h l))); [|lia].
    reflexivity. }
  assert (Hname : name_at (dumped_heap l h) l = dumped_name (name_at h l)).
  { unfold name_at at 1. rewrite Hget. reflexivity. }
  split; [exact Hname|].
  pose proof (dump_ivecset_KeyError scores out_dir l (dumped_heap l h)) as Hk.
  simpl in Hk. unfold name_at in Hname. rewrite Hname in Hk. rewrite Hk; [reflexivity | |].
  - rewrite Hget. exact Hs.
  - exact Hnone.
Qed.

Lemma sub_slash_rest_from_no_slash s : forall inside,
  PosixPath.no_slash (Re.sub_slash_rest_from inside s) = true.
Proof.
  induction s as [|c s IH]; intros inside; [reflexivity|].
  simpl. destruct inside.
  - destruct (Ascii.eqb c Re.newline) eqn:E; [|apply IH].
    simpl. rewrite IH. apply Ascii.eqb_eq in E. subst c. reflexivity.
  - destruct (Ascii.eqb c "/") eqn:E; [apply IH|].
    simpl. rewrite E, IH. reflexivity.
Qed.

(** X14. The recording id of every line that [dump_rttm] writes is the name
    that the rewrite leaves, cut before its first slash: it holds no
    slash, whatever directories the name of the set goes through. *)
Theorem dump_rttm_recording_id scores out_dir l h i t :
  written (snd (fst (dump_ivecset scores out_dir l h))) !! i = Some t ->
  rttm_file t = Re.sub_slash_rest (dumped_name (name_at h l))
  /\ PosixPath.no_slash (rttm_file t) = true.
Proof.
  intros Ht. destruct (dump_rttm_lines_sound scores out_dir l h i t Ht)
    as (v & a & _ & _ & Hfile & _).
  unfold name_at. rewrite Hfile. split; [reflexivity|].
  apply sub_slash_rest_from_no_slash.
Qed.

Lemma startswith_slash_append nm ext :
  PyStr.startswith "/" nm = true -> PyStr.startswith "/" (nm +:+ ext) = true.
Proof. destruct nm as [|c nm]; simpl; [discriminate | auto]. Qed.

(** X15. The output directory does not confine the timeline: for a set with
    i-vectors whose name starts with a slash, [dump_rttm] opens the file
    [<name>.rttm] itself, whatever [out_dir] is. *)
Theorem dump_rttm_absolute_name scores out_dir l h :
  0 < size_at h l ->
  PyStr.startswith "/" (name_at h l) = true ->
  exists ev tr,
    snd (fst (dump_ivecset scores out_dir l h))
      = ev :: open_w (name_at h l +:+ ".rttm") :: tr
    /\ forall path t, write path t ∈ tr -> path = name_at h l +:+ ".rttm".
Proof.
  unfold size_at, name_at. intros Hs Habs. rewrite dump_ivecset_run by exact Hs.
  assert (Hpath : PosixPath.join out_dir (IvecSet.name (heap_get h l) +:+ ".rttm")
                  = IvecSet.name (heap_get h l) +:+ ".rttm").
  { unfold PosixPath.join. rewrite startswith_slash_append by exact Habs. reflexivity. }
  rewrite Hpath.
  destruct (for_each _ _ _) as [[h2 tr] r] eqn:E. simpl.
  eexists _, tr. split; [reflexivity|].
  clear Hpath. revert E. generalize (dumped_heap l h).
  generalize (enumerate (IvecSet.ivecs (heap_get h l))).
  intros es. revert tr h2 r. induction es as [|[i v] es IH]; intros tr h2 r h0 E path t Hin.
  - simpl in E. inversion E; subst. inversion Hin.
  - simpl in E. unfold mbind, M_bind in E.
    destruct (dump_segment _ _ _ _ (i, v) h0) as [[h3 t3] r3] eqn:Es.
    destruct (dump_segment_any _ _ _ _ _ _ _ _ _ _ Es)
      as [(e & -> & ->) | (a & t0 & -> & -> & _ & _)].
    + inversion E; subst. inversion Hin.
    + destruct (for_each es _ h3) as [[h4 t4] r4] eqn:E4.
      inversion E; subst; clear E.
      apply elem_of_cons in Hin as [Hin | Hin].
      * inversion Hin. reflexivity.
      * eapply IH; eassumption.
Qed.

(** *** What [get_num_speakers] returns *)

Lemma try_num_speakers_inv self X cl fs k h h1 tr cl1 fs1 :
  try_num_speakers self X (cl, fs) k h = (h1, tr, Ok (cl1, fs1)) ->
  exists centers cs,
    sklearnKMeans k X = Ok centers
    /\ PLDAKMeans centers k (plda self) X = Ok cs
    /\ cl1 = cl ++ [cs].
Proof.
  unfold try_num_speakers, call, mbind, M_bind. simpl fst. simpl snd.
  destruct (sklearnKMeans k X) as [centers|e] eqn:Ek; [|discriminate].
  destruct (PLDAKMeans centers k (plda self) X) as [cs|e] eqn:Ep; [|discriminate].
  destruct (s_norm self) as [f|]; [|discriminate]. simpl.
  destruct (f cs cs) as [a|e]; [|discriminate]. simpl.
  destruct (Numpy.take a _) as [sc|e]; [|discriminate]. simpl.
  destruct (get_features sc) as [fea|e]; [|discriminate]. simpl.
  intros H. inversion H. exists centers, cs. auto.
Qed.

Lemma candidates_loop_inv self X ks : forall cl fs h h1 tr cl1 fs1,
  for_fold ks (try_num_speakers self X) (cl, fs) h = (h1, tr, Ok (cl1, fs1)) ->
  exists new,
    cl1 = cl ++ new
    /\ Forall2 (fun k cs => exists centers,
                  sklearnKMeans k X = Ok centers
                  /\ PLDAKMeans centers k (plda self) X = Ok cs) ks new.
Proof.
  induction ks as [|k ks IH]; intros cl fs h h1 tr cl1 fs1 H.
  - simpl in H. inversion H. exists []. rewrite app_nil_r. split; [reflexivity|constructor].
  - simpl in H. unfold mbind, M_bind in H.
    destruct (try_num_speakers self X (cl, fs) k h) as [[h2 t2] [[cl2 fs2]|e]] eqn:Et;
      [|discriminate].
    destruct (try_num_speakers_inv _ _ _ _ _ _ _ _ _ _ Et) as (centers & cs & Hk & Hp & ->).
    destruct (for_fold ks _ (cl ++ [cs], fs2) h2) as [[h3 t3] r3] eqn:El.
    inversion H; subst; clear H.
    destruct (IH _ _ _ _ _ _ _ El) as (new & -> & Hall).
    exists (cs :: new). rewrite <- app_assoc. split; [reflexivity|].
    constructor; eauto.
Qed.

Lemma range_lookup a b i k :
  range a b !! i = Some k -> k = (a + Z.of_nat i)%Z /\ (k < b)%Z.
Proof.
  unfold range. rewrite list_lookup_fmap. intros H.
  destruct (seq 0 (Z.to_nat (b - a)) !! i) as [j|] eqn:E; [|discriminate].
  apply lookup_seq in E as [-> Hlt]. simpl in H. inversion H. lia.
Qed.

(** X16. When [get_num_speakers] returns, the count it returns lies between
    [min_speakers] and [max_speakers], and the centroids it returns are the
    ones fitted for that very count: k-means for the count, then the PLDA
    re-estimation of its centres. *)
Theorem get_num_speakers_result self X a b h h1 tr k cs :
  get_num_speakers self X a b h = (h1, tr, Ok (k, cs)) ->
  (a <= k <= b)%Z
  /\ exists centers,
       sklearnKMeans k X = Ok centers
       /\ PLDAKMeans centers k (plda self) X = Ok cs.
Proof.
  unfold get_num_speakers. unfold mbind at 1, M_bind at 1.
  destruct (for_fold (range a (b + 1)) (try_num_speakers self X) ([], []) h)
    as [[h2 t2] [[cl fs]|e]] eqn:El; [|discriminate].
  destruct (candidates_loop_inv _ _ _ _ _ _ _ _ _ _ El) as (new & Hcl & Hall).
  simpl in Hcl. subst cl. simpl fst. simpl snd.
  unfold getattr. destruct (model self) as [mdl|]; [|discriminate].
  unfold mbind, M_bind, mret, M_ret, lift.
  destruct (model_test mdl fs) as [probs|e]; [|discriminate].
  destruct (Numpy.argmax (Numpy.sum_axis0 probs)) as [num|e]; [|discriminate].
  unfold list_getitem. destruct (new !! num) as [cs0|] eqn:En; [|discriminate].
  intros H. inversion H; subst; clear H.
  destruct (Forall2_lookup_r _ _ _ _ _ Hall En) as (k0 & Hk0 & centers & Hk & Hp).
  apply range_lookup in Hk0 as [-> Hlt].
  replace (Z.of_nat num + a)%Z with (a + Z.of_nat num)%Z by lia.
  split; [lia | eauto].
Qed.

(** *** Two more edges of [score_ivec] and [dump_rttm] *)

Lemma score_ivecset_max_irrelevant self m1 m2 d l h :
  (0 < size_at h l -> IvecSet.num_speakers (heap_get h l) <> None) ->
  score_ivecset self m1 d l h = score_ivecset self m2 d l h.
Proof.
  unfold size_at. intros Hdecl.
  destruct (Nat.eq_dec (IvecSet.size (heap_get h l)) 0) as [Hz|Hnz].
  - rewrite !score_ivecset_skip by exact Hz. reflexivity.
  - assert (Hs : 0 < IvecSet.size (heap_get h l)) by lia.
    rewrite !score_ivecset_run by exact Hs.
    unfold estimate_centroids.
    destruct (IvecSet.num_speakers (heap_get h l)) as [k|]; [reflexivity|].
    exfalso. apply (Hdecl Hs). reflexivity.
Qed.

(** X17. [max_num_speakers] bears on the sets without a declared speaker
    count only: when every set of the collection that has i-vectors
    declares its count, [score_ivec] does the same, scores, log and calls,
    for any two values of it. *)
Theorem score_ivec_max_only_for_undeclared self m1 m2 h :
  Forall (fun l => 0 < size_at h l -> IvecSet.num_speakers (heap_get h l) <> None)
         (ivecs self) ->
  score_ivec self m1 h = score_ivec self m2 h.
Proof.
  unfold score_ivec. generalize (∅ : scores_t).
  induction (ivecs self) as [|l ls IH]; intros d Hall; [reflexivity|].
  apply Forall_cons in Hall as [Hl Hrest].
  simpl for_fold. unfold mbind, M_bind.
  rewrite (score_ivecset_max_irrelevant self m1 m2 d l h Hl).
  pose proof (pure_score_ivecset self m2 d l h) as Hp.
  destruct (score_ivecset self m2 d l h) as [[h2 t2] [d2|e]]; [|reflexivity].
  simpl in Hp. subst h2. rewrite (IH d2 Hrest). reflexivity.
Qed.

Lemma dump_segments_short scores name reg_name path a vs : forall k h,
  scores !! name = Some a -> 0 < Numpy.nrows a ->
  k <= Numpy.ncols a -> Numpy.ncols a < k + length vs ->
  exists lines,
    for_each (zip (seq k (length vs)) vs) (dump_segment scores name reg_name path) h
      = (h, map (write path) lines, Raise IndexError)
    /\ length lines = Numpy.ncols a - k.
Proof.
  induction vs as [|v vs IH]; intros k h Ha Hr Hk Hlen; [simpl in Hlen; lia|].
  simpl in Hlen. simpl zip.
  destruct (Nat.eq_dec k (Numpy.ncols a)) as [->|Hne].
  - exists []. split; [|simpl; lia].
    apply for_each_first_raises.
    unfold dump_segment, dict_getitem. rewrite Ha. simpl fst. simpl snd.
    rewrite (bind_lift_Ok _ _ _ a) by reflexivity.
    apply bind_lift_Raise. unfold Numpy.getitem. simpl.
    destruct (Nat.ltb_spec (Numpy.ncols a) (Numpy.ncols a)); [lia | reflexivity].
  - destruct (dump_segment_ok scores name reg_name path a k v h Ha) as (t & Ht & _);
      [lia | exact Hr |].
    destruct (IH (S k) h Ha Hr) as (lines & Hrun & Hl); [lia | lia |].
    exists (t :: lines). split.
    + simpl for_each. rewrite (bind_Ok _ _ _ _ _ _ Ht), Hrun. reflexivity.
    + simpl. lia.
Qed.

(** X18. [dump_rttm] checks no shape: for a set with more segments than its
    score matrix has columns, it writes the lines of the segments that have
    a column and then raises [IndexError], leaving the file cut short. *)
Theorem dump_rttm_too_few_columns scores out_dir l h a :
  0 < size_at h l ->
  scores !! name_at h l = Some a ->
  0 < Numpy.nrows a ->
  Numpy.ncols a < size_at h l ->
  exists lines,
    dump_ivecset scores out_dir l h =
      (dumped_heap l h,
       mkdir_p (PosixPath.join out_dir (PosixPath.dirname (name_at h l)))
         :: open_w (PosixPath.join out_dir (name_at h l +:+ ".rttm"))
         :: map (write (PosixPath.join out_dir (name_at h l +:+ ".rttm"))) lines,
       Raise IndexError)
    /\ length lines = Numpy.ncols a.
Proof.
  unfold size_at, name_at. intros Hs Ha Hr Hc.
  rewrite dump_ivecset_run by exact Hs.
  destruct (dump_segments_short scores (IvecSet.name (heap_get h l))
              (Re.sub_slash_rest (dumped_name (IvecSet.name (heap_get h l))))
              (PosixPath.join out_dir (IvecSet.name (heap_get h l) +:+ ".rttm"))
              a (IvecSet.ivecs (heap_get h l)) 0 (dumped_heap l h) Ha Hr)
    as (lines & Hrun & Hlen); [lia | exact Hc |].
  unfold enumerate. rewrite Hrun. exists lines. split; [reflexivity | lia].
Qed.

End Pipeline.

(* ===================================================================== *)
(** ** [score_ivec] with the scorers of the specification                  *)
(* ===================================================================== *)

Section SpecScorers.

Variables normT pldaT modelT : Type.
Variable sklearnKMeans : Z -> list vec -> result (list vec).
Variable PLDAKMeans : list vec -> Z -> option pldaT -> list vec -> result (list vec).
Variable xmeans : list vec -> Z -> result xmeans_state.
Variable cosine : vec -> vec -> Q.
(** [PLDA.score] and [Normalization.s_norm] as [spec_scorer] has them: the
    exception each raises on an input it does not take, and the score each
    gives to a pair. *)
Variable plda_refuses : pldaT -> list vec -> list vec -> option exn.
Variable plda_pair : pldaT -> vec -> vec -> Q.
Variable norm_refuses : normT -> list vec -> list vec -> option exn.
Variable norm_pair : normT -> vec -> vec -> Q.

Local Abbreviation plda_score := (fun p => spec_scorer (plda_refuses p) (plda_pair p)).
Local Abbreviation norm_s_norm := (fun nm => spec_scorer (norm_refuses nm) (norm_pair nm)).



End SpecScorers.


(* ===================================================================== *)
(** ** The theorems at concrete recordings                                 *)
(* ===================================================================== *)

Example str_split :
  map PyStr.split [" rec1  2 " +:+ Demo.nl; "rec1"; Demo.nl; "a b c"]
  = [["rec1"; "2"]; ["rec1"]; []; ["a"; "b"; "c"]].
Proof. vm_compute. reflexivity. Qed.

Example str_rstrip : PyStr.rstrip (" rec1 2 " +:+ Demo.nl) = " rec1 2".
Proof. vm_compute. reflexivity. Qed.

Example str_int :
  map PyStr.int ["2"; "-12"; "+7"; "007"; "2.5"; "x"; "-"; "12L"]
  = [Some 2%Z; Some (-12)%Z; Some 7%Z; Some 7%Z; None; None; None; None].
Proof. vm_compute. reflexivity. Qed.

Example path_normpath :
  map PosixPath.normpath
    ["a//b"; "./a/"; "/../a"; "//a"; "///a"; ""; "a/.."; "../../a/../b"; "/"; "a/b/../../.."]
  = ["a/b"; "a"; "/a"; "//a"; "/a"; "."; "."; "../../b"; "/"; ".."].
Proof. vm_compute. reflexivity. Qed.

Example path_join_dirname :
  PosixPath.join "out" "a/b.rttm" = "out/a/b.rttm"
  /\ PosixPath.join "out" "/a" = "/a"
  /\ PosixPath.join "out" "" = "out/"
  /\ map PosixPath.dirname ["a/b/c"; "abc"; "/x"; "a//b"] = ["a/b"; ""; "/"; "a"].
Proof. vm_compute. auto. Qed.

Example re_sub :
  map (Re.sub_literal "beamformed/")
    ["beamformed/a"; "beamformed//a"; "x/beamformed/y/beamformed/z"; "beamformed"]
  = ["a"; "/a"; "x/y/z"; "beamformed"]
  /\ map Re.sub_slash_rest ["a/b/c"; "abc"; "/x"] = ["a"; "abc"; ""].
Proof. vm_compute. auto. Qed.



(** The three matrices of [meetingA]: columns are segments, rows are the
    centroids, here its first two embeddings. *)
Example score_ivec_meetingA_matrices :
  let h := [Demo.meetingA] in
  let never := fun (_ : unit) (_ _ : list vec) => @None exn in
  let table := fun self =>
    match score_ivec unit unit unit Demo.KMeans Demo.PLDAKMeans Demo.xmeans Demo.dot
            (fun p => spec_scorer (never p) Demo.dot)
            (fun nm => spec_scorer (never nm) Demo.half_dot) self 6 h with
    | (_, _, Ok scores) =>
        match scores !! "meetingA" with
        | Some a => map (Numpy.row a) (seq 0 (Numpy.nrows a))
        | None => []
        end
    | _ => []
    end in
  table (Demo.cosine_pipeline [0]) = [[1; 0; 1]; [0; 1; 1]]%Q
  /\ table (Demo.plda_pipeline [0]) = [[1; 0; 1]; [0; 1; 1]]%Q
  /\ table (Demo.norm_pipeline [0]) = [[1 / 2; 0 / 2; 1 / 2]; [0 / 2; 1 / 2; 1 / 2]]%Q.
Proof. vm_compute. auto. Qed.


(** [meetingA], with the matrix [Demo.matrix], and [silence]: the run
    returns, with three lines for the first set and none for the second. *)
Lemma dump_rttm_segment_lines_witness :
  let self := Demo.cosine_pipeline [0; 1] in
  let h := [Demo.meetingA; Demo.silence] in
  let scores : gmap string Numpy.ndarray := {["meetingA" := Demo.matrix]} in
  let run := dump_rttm unit unit unit self scores "out" h in
  snd run = Ok tt
  /\ length (written (snd (fst run))) = 3
  /\ exists lines : list (list rttm),
       written (snd (fst run)) = concat lines
       /\ length lines <= 2
       /\ (snd run = Ok tt ->
           Forall2 (fun l ls => length ls = size_at h l) [0; 1] lines)
       /\ forall n l ls, [0; 1] !! n = Some l -> lines !! n = Some ls ->
            let s := heap_get (visited h (take n [0; 1])) l in
            IvecSet.ivecs s = IvecSet.ivecs (heap_get h l)
            /\ (l ∉ take n [0; 1] -> s = heap_get h l)
            /\ forall i t, ls !! i = Some t ->
                 exists v a,
                   IvecSet.ivecs s !! i = Some v
                   /\ scores !! IvecSet.name s = Some a
                   /\ rttm_start t = (inject_Z (window_start v) / 1000)%Q
                   /\ rttm_duration t = (inject_Z (window_end v - window_start v) / 1000)%Q
                   /\ is_argmax (Numpy.column a i) (rttm_speaker t).
Proof.
  intros self h scores run.
  split; [vm_compute; reflexivity|]. split; [vm_compute; reflexivity|].
  apply (dump_rttm_segment_lines unit unit unit self scores "out" h
           (fst (fst run)) (snd (fst run)) (snd run)).
  unfold run. generalize (dump_rttm unit unit unit self scores "out" h).
  intros [[h2 tr] r]. reflexivity.
Defined.

Example dump_rttm_meetingA :
  written (snd (fst (dump_ivecset {["meetingA" := Demo.matrix]} "out" 0 [Demo.meetingA])))
  = [ mk_rttm "meetingA" (0 # 1000) (1500 # 1000) 0;
      mk_rttm "meetingA" (1500 # 1000) (2500 # 1000) 1;
      mk_rttm "meetingA" (4000 # 1000) (500 # 1000) 0 ].
Proof. vm_compute. reflexivity. Qed.

(** [meetingB]: three embeddings of dimension two and no declared count.
    The rows taken for centroids are the index lists [[0; 1]] and [[2]]. *)
Lemma xmeans_centroids_are_index_lists_witness :
  let X := IvecSet.get_all Demo.meetingB in
  let cs : list vec := [[0%Q; 1%Q]; [inject_Z 2]] in
  (exists st, Demo.xmeans X 6 = Ok st /\ cs = Numpy.array_of_indices (get_clusters st))
  /\ ~ (2 <= length cs /\ Forall (fun c => length c = 2) cs).
Proof.
  intros X cs.
  apply (xmeans_centroids_are_index_lists unit unit unit Demo.KMeans Demo.PLDAKMeans
           Demo.xmeans (Demo.cosine_pipeline [0]) Demo.meetingB 6
           [Demo.meetingB] [Demo.meetingB] [xmeans_process X 6] cs 2).
  - reflexivity.
  - repeat constructor.
  - vm_compute. lia.
  - intros st H. inversion H. reflexivity.
  - reflexivity.
Defined.

(** What follows in [score_ivec]: the index lists are no rows of two
    features, and the cosine similarity raises. *)
Example score_ivec_unknown_count_raises :
  let X := IvecSet.get_all Demo.meetingB in
  score_ivec unit unit unit Demo.KMeans Demo.PLDAKMeans Demo.xmeans Demo.dot
    Demo.plda_score Demo.s_norm (Demo.cosine_pipeline [0]) 6 [Demo.meetingB]
  = ([Demo.meetingB], [loginfo "Scoring meetingB ..."; xmeans_process X 6], Raise ValueError).
Proof. vm_compute. reflexivity. Qed.


Example load_ivecs_demo_index :
  load_lines unit unit unit Demo.pickle_file Demo.loader
    ["meetingA 2" +:+ Demo.nl; "missing 3" +:+ Demo.nl; "meetingB" +:+ Demo.nl] []
  = ([Demo.meetingA; Demo.meetingB],
     [ loginfo "[Diarization.load_ivecs] Loading pickle file meetingA ..."; yield_ 0;
       loginfo "[Diarization.load_ivecs] Loading pickle file missing ...";
       logwarning "[Diarization.load_ivecs] No pickle file found for missing.";
       loginfo "[Diarization.load_ivecs] Loading pickle file meetingB ..."; yield_ 1 ],
     Ok tt).
Proof. vm_compute. reflexivity. Qed.

(** The constructor over the directory [ivecs]: the object holds the two
    sets that loaded, and [meetingA] its declared count. *)
Example init_from_directory :
  exists tr,
    init unit unit unit Demo.index_file Demo.pickle_file "list.txt" (inl "ivecs") None None []
    = ([Demo.meetingA; Demo.meetingB], tr,
       Ok (mk_Diarization "list.txt" (Some "ivecs") [0; 1] None None None None))
    /\ yielded tr = [0; 1].
Proof. eexists. split; vm_compute; reflexivity. Qed.

(** An empty line in the index: no column, and the load stops on
    [IndexError]. *)
Lemma load_ivecs_malformed_line_witness :
  exists tr,
    load_lines unit unit unit Demo.pickle_file Demo.loader
      [Demo.nl; "meetingB" +:+ Demo.nl] []
    = ([], tr, Raise IndexError)
    /\ yielded tr = [].
Proof.
  apply (load_ivecs_malformed_line unit unit unit Demo.pickle_file Demo.loader "ivecs"
           Demo.nl ["meetingB" +:+ Demo.nl] []).
  - reflexivity.
  - vm_compute. discriminate.
  - vm_compute. discriminate.
Defined.

Example load_ivecs_three_columns :
  load_lines unit unit unit Demo.pickle_file Demo.loader
    ["meetingA 2 x" +:+ Demo.nl; "meetingB" +:+ Demo.nl] []
  = ([], [loginfo "[Diarization.load_ivecs] Loading pickle file meetingA ..."],
     Raise (DiarizationException
              "[Diarization.load_ivecs] Unexpected number of columns in input list list.txt.")).
Proof. vm_compute. reflexivity. Qed.

(** C7 does not hold for a malformed count. The index has the line
    ["missing x"], whose second column is not an integer, before the
    well-formed line ["meetingB"], whose record is in storage: the load
    raises [ValueError] and yields nothing, though the line ["meetingB"]
    alone loads its set. *)
Lemma load_ivecs_bad_count_aborts :
  let run lines := load_lines unit unit unit Demo.pickle_file Demo.loader lines [] in
  is_Some (record_path "ivecs" ("meetingB" +:+ Demo.nl))
  /\ run ["meetingB" +:+ Demo.nl]
       = ([Demo.meetingB],
          [loginfo "[Diarization.load_ivecs] Loading pickle file meetingB ..."; yield_ 0],
          Ok tt)
  /\ run ["missing x" +:+ Demo.nl; "meetingB" +:+ Demo.nl]
       = ([], [loginfo "[Diarization.load_ivecs] Loading pickle file missing ..."],
          Raise ValueError).
Proof. vm_compute. eauto. Qed.

(** The demo index, whose lines are well-formed and whose second record is
    missing, and the line ["missing x"]. *)
Lemma load_ivecs_tolerates_missing_records_only_witness :
  let lines := ["meetingA 2" +:+ Demo.nl; "missing 3" +:+ Demo.nl; "meetingB" +:+ Demo.nl] in
  let line := "missing x" +:+ Demo.nl in
  (exists tr,
     load_lines unit unit unit Demo.pickle_file Demo.loader lines []
       = ([Demo.meetingA; Demo.meetingB], tr, Ok tt)
     /\ yielded tr = [0; 1])
  /\ load_lines unit unit unit Demo.pickle_file Demo.loader (line :: lines) []
       = ([], [loginfo "[Diarization.load_ivecs] Loading pickle file missing ..."],
          Raise ValueError).
Proof.
  intros lines line.
  apply (load_ivecs_tolerates_missing_records_only unit unit unit Demo.pickle_file
           Demo.loader "ivecs" lines line lines "missing" "x" []).
  - reflexivity.
  - repeat constructor; vm_compute; eauto.
  - reflexivity.
  - reflexivity.
Defined.


(** C9 does not hold as stated. An object as [__init__] builds it has no
    [model]; [get_num_speakers] with the default bounds clusters for two
    speakers and then raises the [AttributeError] for [s_norm], which is
    not the signal of a missing model. *)
Lemma get_num_speakers_raises_for_s_norm :
  let self := Demo.plda_pipeline [0] in
  let X := IvecSet.get_all Demo.meetingA in
  model self = None
  /\ get_num_speakers unit unit unit Demo.KMeans Demo.PLDAKMeans Demo.get_features
       Demo.model_test self X 2 6 [Demo.meetingA]
     = ([Demo.meetingA],
        [KMeans_fit 2 X; PLDAKMeans_fit [data Demo.v1; data Demo.v2] 2 X],
        Raise (AttributeError "s_norm"))
  /\ is_ModelUnavailableError (AttributeError "s_norm") = false.
Proof. vm_compute. auto. Qed.

(** No candidate count: the bounds [3] and [2]. *)
Lemma get_num_speakers_without_model_witness :
  let self := Demo.plda_pipeline [0] in
  let X := IvecSet.get_all Demo.meetingA in
  exists tr e,
    get_num_speakers unit unit unit Demo.KMeans Demo.PLDAKMeans Demo.get_features
      Demo.model_test self X 3 2 [Demo.meetingA] = ([Demo.meetingA], tr, Raise e)
    /\ e = match snd (for_fold (range 3 (2 + 1))
                        (try_num_speakers unit unit unit Demo.KMeans Demo.PLDAKMeans
                           Demo.get_features self X) ([], []) [Demo.meetingA]) with
           | Ok _ => AttributeError "model"
           | Raise e1 => e1
           end
    /\ ((2 < 3)%Z -> tr = [] /\ e = AttributeError "model")
    /\ (s_norm self = None -> (3 <= 2)%Z ->
        forall centers cs,
          Demo.KMeans 3 X = Ok centers ->
          Demo.PLDAKMeans centers 3 (plda self) X = Ok cs ->
          tr = [KMeans_fit 3 X; PLDAKMeans_fit centers 3 X]
          /\ e = AttributeError "s_norm").
Proof.
  intros self X.
  apply (get_num_speakers_without_model unit unit unit Demo.KMeans Demo.PLDAKMeans
           Demo.get_features Demo.model_test self X 3 2 [Demo.meetingA]).
  reflexivity.
Defined.

(** With both attributes assigned from outside, the call returns a count
    and its centroids. *)
Example get_num_speakers_with_model :
  let self : Diarization unit unit unit :=
    mk_Diarization "list.txt" None [0] None (Some tt)
      (Some (fun X C => Ok (Demo.pairwise Demo.dot X C))) (Some tt) in
  let X := IvecSet.get_all Demo.meetingA in
  snd (get_num_speakers unit unit unit Demo.KMeans Demo.PLDAKMeans Demo.get_features
         Demo.model_test self X 2 3 [Demo.meetingA])
  = Ok (2%Z, [data Demo.v1; data Demo.v2]).
Proof. vm_compute. reflexivity. Qed.

(** C10 does not hold as stated. The name ["beamformed//a"] is rewritten to
    ["/a"], which is its own normal form; the scores are stored under
    ["beamformed/a"] and looked up under ["beamformed//a"], and
    [dump_rttm] raises [KeyError]. *)
Lemma dump_rttm_rewritten_name_lookup_fails :
  let self := Demo.cosine_pipeline [0] in
  let h := [Demo.beamformed_slash_a] in
  let nm := IvecSet.name Demo.beamformed_slash_a in
  dumped_name nm = "/a"
  /\ PosixPath.normpath (dumped_name nm) = dumped_name nm
  /\ exists tr scores,
       score_ivec unit unit unit Demo.KMeans Demo.PLDAKMeans Demo.xmeans Demo.dot
         Demo.plda_score Demo.s_norm self 6 h = (h, tr, Ok scores)
       /\ is_Some (scores !! "beamformed/a")
       /\ snd (dump_rttm unit unit unit self scores "out" h) = Raise (KeyError "beamformed//a")
       /\ written (snd (fst (dump_rttm unit unit unit self scores "out" h))) = [].
Proof.
  intros self h nm. split; [reflexivity|]. split; [reflexivity|].
  eexists. eexists. split; [reflexivity|].
  vm_compute. eauto.
Qed.

(** The recording ["./b"], whose name is not a normalized path. *)
Lemma dump_rttm_lookup_by_read_name_witness :
  let self := Demo.cosine_pipeline [0] in
  let h := [Demo.dot_slash_b] in
  exists tr scores,
    score_ivec unit unit unit Demo.KMeans Demo.PLDAKMeans Demo.xmeans Demo.dot
      Demo.plda_score Demo.s_norm self 6 h = (h, tr, Ok scores)
    /\ (IvecSet.name Demo.dot_slash_b = PosixPath.normpath (IvecSet.name Demo.dot_slash_b) ->
          is_Ok (dict_getitem scores (IvecSet.name Demo.dot_slash_b)))
    /\ (IvecSet.name Demo.dot_slash_b <> PosixPath.normpath (IvecSet.name Demo.dot_slash_b) ->
          exists tr2,
            dump_ivecset scores "out" 0 h = (h, tr2, Raise (KeyError "./b"))
            /\ written tr2 = []).
Proof.
  intros self h. eexists. eexists. split; [reflexivity|].
  eapply (dump_rttm_lookup_by_read_name unit unit unit Demo.KMeans Demo.PLDAKMeans
            Demo.xmeans Demo.dot Demo.plda_score Demo.s_norm self 6 "out" h h _ _ 0 h).
  - reflexivity.
  - left.
  - vm_compute. lia.
  - reflexivity.
Defined.

Example dump_rttm_normalized_name_found :
  let self := Demo.cosine_pipeline [0] in
  let h := [Demo.meetingA] in
  exists tr scores,
    score_ivec unit unit unit Demo.KMeans Demo.PLDAKMeans Demo.xmeans Demo.dot
      Demo.plda_score Demo.s_norm self 6 h = (h, tr, Ok scores)
    /\ Numpy.shape <$> scores !! "meetingA" = Some (2, 3)
    /\ snd (dump_rttm unit unit unit self scores "out" h) = Ok tt
    /\ map rttm_speaker (written (snd (fst (dump_rttm unit unit unit self scores "out" h)))) = [0; 1; 0].
Proof.
  intros self h. eexists. eexists. split; [reflexivity|]. vm_compute. auto.
Qed.

(* ===================================================================== *)
(** ** The further properties at concrete recordings                       *)
(* ===================================================================== *)

(** Looking for ["meetingB"] behind ["meetingA"]. *)
Lemma get_ivec_first_match_witness :
  get_ivec unit unit unit (Demo.cosine_pipeline [0; 1; 1]) "meetingB"
    [Demo.meetingA; Demo.meetingB]
  = ([Demo.meetingA; Demo.meetingB], [print_ "meetingA"; print_ "meetingB"], Ok 1).
Proof.
  apply (get_ivec_first_match unit unit unit (Demo.cosine_pipeline [0; 1; 1]) "meetingB"
           [0] 1 [1] [Demo.meetingA; Demo.meetingB]).
  - reflexivity.
  - repeat constructor. vm_compute. discriminate.
  - reflexivity.
Defined.

(** Looking for a name that no set has. *)
Lemma get_ivec_not_found_witness :
  get_ivec unit unit unit (Demo.cosine_pipeline [0; 1]) "nobody"
    [Demo.meetingA; Demo.meetingB]
  = ([Demo.meetingA; Demo.meetingB], [print_ "meetingA"; print_ "meetingB"],
     Raise (DiarizationException "[Diarization.get_ivec] Name of the set not found - nobody.")).
Proof.
  apply (get_ivec_not_found unit unit unit (Demo.cosine_pipeline [0; 1]) "nobody"
           [Demo.meetingA; Demo.meetingB]).
  repeat constructor; vm_compute; discriminate.
Defined.

Example variational_bayes_demo :
  variational_bayes unit unit unit (Demo.cosine_pipeline [0; 1; 2]) ∅
    [Demo.meetingA; Demo.silence; Demo.meetingB]
  = ([Demo.meetingA; Demo.silence; Demo.meetingB],
     [logwarning "[Diarization.variational_bayes] No i-vectors in silence."], Ok tt).
Proof. vm_compute. reflexivity. Qed.

(** The demo index over a memory that holds a set already. *)
Lemma load_ivecs_only_appends_witness :
  exists new tr r,
    load_lines unit unit unit Demo.pickle_file Demo.loader
      ["meetingA 2" +:+ Demo.nl; Demo.nl; "meetingB" +:+ Demo.nl] [Demo.silence]
    = ([Demo.silence] ++ new, tr, r)
    /\ yielded tr = seq 1 (length new).
Proof.
  apply (load_ivecs_only_appends unit unit unit Demo.pickle_file Demo.loader "ivecs"
           ["meetingA 2" +:+ Demo.nl; Demo.nl; "meetingB" +:+ Demo.nl] [Demo.silence]).
  reflexivity.
Defined.

(** The line ["meetingA -3"]: the pickle declares two speakers. *)
Lemma load_ivecs_takes_any_count_witness :
  load_lines unit unit unit Demo.pickle_file Demo.loader ["meetingA -3" +:+ Demo.nl] []
  = ([IvecSet.mk "meetingA" (Some (-3)%Z) [Demo.v1; Demo.v2; Demo.v3]],
     [loginfo "[Diarization.load_ivecs] Loading pickle file meetingA ..."; yield_ 0],
     Ok tt).
Proof.
  apply (load_ivecs_takes_any_count unit unit unit Demo.pickle_file Demo.loader "ivecs"
           ("meetingA -3" +:+ Demo.nl) [] "meetingA" "-3" (-3)%Z Demo.meetingA []).
  - reflexivity.
  - reflexivity.
  - reflexivity.
  - reflexivity.
Defined.

(** The constructor over the demo index. *)
Lemma init_over_directory_witness :
  exists tr,
    init unit unit unit Demo.index_file Demo.pickle_file "list.txt" (inl "ivecs")
      None (Some tt) []
    = ([Demo.meetingA; Demo.meetingB], tr,
       Ok (mk_Diarization "list.txt" (Some "ivecs") [0; 1] None (Some tt) None None))
    /\ NoDup [0; 1]
    /\ forall i s, [Demo.meetingA; Demo.meetingB] !! i = Some s ->
         heap_get [Demo.meetingA; Demo.meetingB] (0 + i) = s.
Proof.
  apply (init_over_directory unit unit unit Demo.index_file Demo.pickle_file "list.txt"
           "ivecs" None (Some tt)
           ["meetingA 2" +:+ Demo.nl; "missing 3" +:+ Demo.nl; "meetingB" +:+ Demo.nl] []).
  - reflexivity.
  - repeat constructor; vm_compute; eauto.
Defined.

(** The constructor over an index with an empty second line. *)
Lemma init_stops_at_bad_line_witness :
  exists tr,
    init unit unit unit Demo.gap_index_file Demo.pickle_file "gap.txt" (inl "ivecs")
      None None []
    = ([Demo.meetingA], tr, Raise IndexError)
    /\ yielded tr = [0].
Proof.
  apply (init_stops_at_bad_line unit unit unit Demo.gap_index_file Demo.pickle_file
           "gap.txt" "ivecs" None None ["meetingA 2" +:+ Demo.nl] Demo.nl
           ["meetingB" +:+ Demo.nl] [] IndexError).
  - reflexivity.
  - repeat constructor; vm_compute; eauto.
  - reflexivity.
Defined.

(** No file ["nothing.txt"]. *)
Lemma init_missing_index_witness :
  init unit unit unit Demo.index_file Demo.pickle_file "nothing.txt" (inl "ivecs")
    None None []
  = ([], [], Raise IOError).
Proof.
  apply (init_missing_index unit unit unit Demo.index_file Demo.pickle_file "nothing.txt"
           "ivecs" None None []).
  reflexivity.
Defined.

(** [meetingA] and [silence]: one key, ["meetingA"]. *)
Lemma score_ivec_keys_witness :
  let self := Demo.cosine_pipeline [0; 1] in
  let h := [Demo.meetingA; Demo.silence] in
  is_Some (<["meetingA" := Demo.meetingA_scores]> (∅ : gmap string Numpy.ndarray)
             !! "meetingA")
  <-> exists l, l ∈ [0; 1] /\ 0 < size_at h l /\ "meetingA" = key_at h l.
Proof.
  intros self h.
  apply (score_ivec_keys unit unit unit Demo.KMeans Demo.PLDAKMeans Demo.xmeans Demo.dot
           Demo.plda_score Demo.s_norm self 6 h h
           [ loginfo "Scoring meetingA ..."; KMeans_fit 2 (IvecSet.get_all Demo.meetingA);
             loginfo "Scoring silence ...";
             logwarning "[Diarization.score] No i-vectors to score in silence." ]
           (<["meetingA" := Demo.meetingA_scores]> ∅) "meetingA").
  reflexivity.
Defined.

(** ["./b"] and ["b"]: one key, and the matrix of the later set. *)
Lemma score_ivec_last_set_wins_witness :
  let self := Demo.cosine_pipeline [0; 1] in
  let h := [Demo.dot_slash_b; Demo.plain_b] in
  exists tr scores,
    score_ivec unit unit unit Demo.KMeans Demo.PLDAKMeans Demo.xmeans Demo.dot
      Demo.plda_score Demo.s_norm self 6 h = (h, tr, Ok scores)
    /\ key_at h 0 = key_at h 1
    /\ exists tr1 cs a,
         estimate_centroids unit unit unit Demo.KMeans Demo.PLDAKMeans Demo.xmeans self
           Demo.plain_b (IvecSet.get_all Demo.plain_b) 6 h = (h, tr1, Ok cs)
         /\ score_matrix unit unit unit Demo.dot Demo.plda_score Demo.s_norm self
              (IvecSet.get_all Demo.plain_b) cs = Ok a
         /\ scores !! "b" = Some a.
Proof.
  intros self h. eexists. eexists. split; [reflexivity|]. split; [reflexivity|].
  eapply (score_ivec_last_set_wins unit unit unit Demo.KMeans Demo.PLDAKMeans Demo.xmeans
            Demo.dot Demo.plda_score Demo.s_norm self 6 [0] 1 [] h h).
  - reflexivity.
  - reflexivity.
  - vm_compute. lia.
  - constructor.
Defined.

(** [crowded] declares two speakers and has one i-vector. *)
Lemma score_ivec_aborts_on_kmeans_error_witness :
  let self := Demo.cosine_pipeline [0; 1] in
  let h := [Demo.meetingA; Demo.crowded] in
  exists tr e,
    score_ivec unit unit unit Demo.KMeans Demo.PLDAKMeans Demo.xmeans Demo.dot
      Demo.plda_score Demo.s_norm self 6 h = (h, tr, Raise e).
Proof.
  intros self h.
  apply (score_ivec_aborts_on_kmeans_error unit unit unit Demo.KMeans Demo.PLDAKMeans
           Demo.xmeans Demo.dot Demo.plda_score Demo.s_norm self 6 1 2%Z ValueError h).
  - right. left.
  - vm_compute. lia.
  - reflexivity.
  - reflexivity.
Defined.

(** [meetingA], [silence] and [plain_b], scored and then dumped. *)
Lemma score_then_dump_no_KeyError_witness :
  let self := Demo.cosine_pipeline [0; 1; 2] in
  let h := [Demo.meetingA; Demo.silence; Demo.plain_b] in
  exists tr scores,
    score_ivec unit unit unit Demo.KMeans Demo.PLDAKMeans Demo.xmeans Demo.dot
      Demo.plda_score Demo.s_norm self 6 h = (h, tr, Ok scores)
    /\ forall k, snd (dump_rttm unit unit unit self scores "out" h) <> Raise (KeyError k).
Proof.
  intros self h. eexists. eexists.
  assert (Hrun : score_ivec unit unit unit Demo.KMeans Demo.PLDAKMeans Demo.xmeans Demo.dot
                   Demo.plda_score Demo.s_norm self 6 h = (h, _, Ok _))
    by (vm_compute; reflexivity).
  split; [exact Hrun|]. intros k.
  apply (score_then_dump_no_KeyError unit unit unit Demo.KMeans Demo.PLDAKMeans
           Demo.xmeans Demo.dot Demo.plda_score Demo.s_norm self 6 "out" h h _ _ k Hrun).
  - apply (bool_decide_unpack (NoDup (ivecs self))). vm_compute. exact I.
  - repeat constructor.
Defined.

Example score_then_dump_lines :
  let self := Demo.cosine_pipeline [0; 1; 2] in
  let h := [Demo.meetingA; Demo.silence; Demo.plain_b] in
  exists tr scores,
    score_ivec unit unit unit Demo.KMeans Demo.PLDAKMeans Demo.xmeans Demo.dot
      Demo.plda_score Demo.s_norm self 6 h = (h, tr, Ok scores)
    /\ map (fun t => (rttm_file t, rttm_speaker t))
         (written (snd (fst (dump_rttm unit unit unit self scores "out" h))))
       = [("meetingA", 0); ("meetingA", 1); ("meetingA", 0); ("b", 0)].
Proof. intros self h. eexists. eexists. split; [reflexivity|]. vm_compute. reflexivity. Qed.

(** ["beamformed/a"], dumped twice with its scores. *)
Lemma dump_rttm_second_visit_KeyError_witness :
  let scores : gmap string Numpy.ndarray := {["beamformed/a" := Demo.matrix]} in
  let h := [Demo.beamformed_a] in
  let h1 := fst (fst (dump_ivecset scores "out" 0 h)) in
  name_at h1 0 = "a"
  /\ snd (dump_ivecset scores "out" 0 h1) = Raise (KeyError "a").
Proof.
  intros scores h.
  apply (dump_rttm_second_visit_KeyError scores "out" 0 h).
  - vm_compute. lia.
  - reflexivity.
Defined.

(** The set ["room/mic/rec"]: the recording id is ["room"]. *)
Lemma dump_rttm_recording_id_witness :
  let scores : gmap string Numpy.ndarray := {["room/mic/rec" := Demo.matrix]} in
  let t := mk_rttm "room" (0 # 1000) (1500 # 1000) 0 in
  written (snd (fst (dump_ivecset scores "out" 0 [Demo.nested]))) !! 0 = Some t
  /\ rttm_file t = Re.sub_slash_rest (dumped_name "room/mic/rec")
  /\ PosixPath.no_slash (rttm_file t) = true.
Proof.
  intros scores t.
  assert (Ht : written (snd (fst (dump_ivecset scores "out" 0 [Demo.nested]))) !! 0 = Some t)
    by (vm_compute; reflexivity).
  split; [exact Ht|].
  exact (dump_rttm_recording_id scores "out" 0 [Demo.nested] 0 t Ht).
Defined.

(** The set ["/tmp/rec"], dumped to the directory ["out"]. *)
Lemma dump_rttm_absolute_name_witness :
  let scores : gmap string Numpy.ndarray := {["/tmp/rec" := Demo.matrix]} in
  exists ev tr,
    snd (fst (dump_ivecset scores "out" 0 [Demo.absolute]))
      = ev :: open_w "/tmp/rec.rttm" :: tr
    /\ forall path t, write path t ∈ tr -> path = "/tmp/rec.rttm".
Proof.
  intros scores.
  apply (dump_rttm_absolute_name scores "out" 0 [Demo.absolute]).
  - vm_compute. lia.
  - reflexivity.
Defined.

(** Candidates two and three for [meetingA]: the count is two. *)
Lemma get_num_speakers_result_witness :
  let X := IvecSet.get_all Demo.meetingA in
  let cs := [data Demo.v1; data Demo.v2] in
  exists tr,
    get_num_speakers unit unit unit Demo.KMeans Demo.PLDAKMeans Demo.get_features
      Demo.model_test Demo.count_pipeline X 2 3 [Demo.meetingA]
    = ([Demo.meetingA], tr, Ok (2%Z, cs))
    /\ (2 <= 2 <= 3)%Z
    /\ exists centers,
         Demo.KMeans 2 X = Ok centers
         /\ Demo.PLDAKMeans centers 2 (Some tt) X = Ok cs.
Proof.
  intros X cs. eexists.
  assert (Hrun : get_num_speakers unit unit unit Demo.KMeans Demo.PLDAKMeans
                   Demo.get_features Demo.model_test Demo.count_pipeline X 2 3
                   [Demo.meetingA]
                 = ([Demo.meetingA], _, Ok (2%Z, cs))) by (vm_compute; reflexivity).
  split; [exact Hrun|].
  exact (get_num_speakers_result unit unit unit Demo.KMeans Demo.PLDAKMeans
           Demo.get_features Demo.model_test Demo.count_pipeline X 2 3
           [Demo.meetingA] [Demo.meetingA] _ 2%Z cs Hrun).
Defined.

(** [meetingA] and [silence]: every set with i-vectors declares its count. *)
Lemma score_ivec_max_only_for_undeclared_witness :
  let self := Demo.cosine_pipeline [0; 1] in
  let h := [Demo.meetingA; Demo.silence] in
  score_ivec unit unit unit Demo.KMeans Demo.PLDAKMeans Demo.xmeans Demo.dot
    Demo.plda_score Demo.s_norm self 2 h
  = score_ivec unit unit unit Demo.KMeans Demo.PLDAKMeans Demo.xmeans Demo.dot
      Demo.plda_score Demo.s_norm self 6 h.
Proof.
  intros self h.
  apply (score_ivec_max_only_for_undeclared unit unit unit Demo.KMeans Demo.PLDAKMeans
           Demo.xmeans Demo.dot Demo.plda_score Demo.s_norm self 2%Z 6%Z h).
  repeat constructor.
  - intros _. discriminate.
  - vm_compute. lia.
Defined.

(** [meetingA], three segments, with the one-column scores of [plain_b]. *)
Lemma dump_rttm_too_few_columns_witness :
  let scores : gmap string Numpy.ndarray :=
    {["meetingA" := Demo.pairwise Demo.dot [data Demo.v2] [data Demo.v2]]} in
  exists lines,
    dump_ivecset scores "out" 0 [Demo.meetingA] =
      ([Demo.meetingA],
       mkdir_p "out/" :: open_w "out/meetingA.rttm"
         :: map (write "out/meetingA.rttm") lines,
       Raise IndexError)
    /\ length lines = 1.
Proof.
  intros scores.
  apply (dump_rttm_too_few_columns scores "out" 0 [Demo.meetingA]
           (Demo.pairwise Demo.dot [data Demo.v2] [data Demo.v2])).
  - vm_compute. lia.
  - reflexivity.
  - vm_compute. lia.
  - vm_compute. lia.
Defined.

